(** * mdrip: the tutorial tree, its loader and its visitors

    A shallow embedding of package [program] of mdrip (the tutorial tree
    built from a directory of markdown files, and the visitors that walk it)
    together with the properties its specification states.

    Conventions of the embedding.
    - A Go [string] is a [string]; a [model.FilePath] is a string too.
    - A Go [int] is a [Z] kept in the 64-bit range by [wrap_int].
    - A Go function returning [(T, error)] returns a pair whose components may
      each be nil, written [option T * option error]; where the callee yields
      a value exactly when it yields no error, the pair is kept as a sum
      [T + error].
    - Code that can panic, or whose recursion follows the file system, runs in
      the monad [M]: a run ends with a value and the lines it handed to
      [glog.Info], or panics, or exhausts the fuel that bounds the recursion
      depth of [scanDir].
    - What the package imports from elsewhere (the file system behind
      [model.FilePath], [lexer.Parse], [util.SampleString]) is a parameter. *)

From Stdlib Require Import ZArith Ascii String List Lia Bool.
From stdpp Require Import base option list strings gmap pretty.

Local Open Scope string_scope.
Local Open Scope Z_scope.
Local Open Scope list_scope.

(** ** Go values *)

(** [model.FilePath] and [model.Label] are named string types. *)
Definition FilePath := string.
Definition Label := string.

(** The two kinds of [error] value the package handles: the ones it makes with
    [errors.New], and the ones the file system hands back. *)
Inductive error : Type :=
| errors_New (text : string)
| PathError (op path cause : string).

(** [err.Error()]. *)
Definition Error (err : error) : string :=
  match err with
  | errors_New text => text
  | PathError op path cause => op +:+ " " +:+ path +:+ ": " +:+ cause
  end.

(** Go's [int] on a 64-bit platform. *)
Definition int_min : Z := - 2 ^ 63.
Definition int_max : Z := 2 ^ 63 - 1.
Definition int_range (x : Z) : Prop := int_min <= x <= int_max.
Definition wrap_int (x : Z) : Z := (x + 2 ^ 63) mod 2 ^ 64 - 2 ^ 63.

(** ** The run monad *)

Inductive M (A : Type) : Type :=
| Done (a : A) (logged : list string)
| Panicked
| OutOfFuel.
Arguments Done {A} a logged.
Arguments Panicked {A}.
Arguments OutOfFuel {A}.

Definition bind {A B} (m : M A) (f : A -> M B) : M B :=
  match m with
  | Done a l1 =>
      match f a with
      | Done b l2 => Done b (l1 ++ l2)
      | Panicked => Panicked
      | OutOfFuel => OutOfFuel
      end
  | Panicked => Panicked
  | OutOfFuel => OutOfFuel
  end.

Definition ret {A} (a : A) : M A := Done a [].

Notation "'let*' x ':=' m 'in' k" := (bind m (fun x => k))
  (at level 10, x name, m at level 100, k at level 200).

(** [glog.Info(msg)]: one line handed to the logger, control flow untouched. *)
Definition glog_Info (msg : string) : M unit := Done tt [msg].

(** The value a run ends with, if it ends normally. *)
Definition value {A} (m : M A) : option A :=
  match m with Done a _ => Some a | _ => None end.

Definition returns {A} (m : M A) (a : A) : Prop := exists l, m = Done a l.

(** ** The parts of Go's standard library the package calls *)

Module Strings.

(** [strings.Index(s, substr)]: byte offset of the first occurrence, -1 if
    there is none. *)
Definition Index (s substr : string) : Z :=
  match String.index 0 substr s with
  | Some i => Z.of_nat i
  | None => -1
  end.

(** [strings.HasPrefix(s, prefix)]. *)
Definition HasPrefix (s prefix : string) : bool := String.prefix prefix s.

(** [string(b)] for a byte [b]: the UTF-8 encoding of the code point [b],
    one byte below 0x80 and two bytes from there on. *)
Definition of_byte (b : ascii) : string :=
  let n := Z.of_N (N_of_ascii b) in
  if n <? 128 then String b EmptyString
  else String (ascii_of_N (Z.to_N (Z.lor 192 (Z.shiftr n 6))))
         (String (ascii_of_N (Z.to_N (Z.lor 128 (Z.land n 63)))) EmptyString).

End Strings.

Module filepath.

Definition Separator : ascii := "/"%char.
Definition IsPathSeparator (c : ascii) : bool := Ascii.eqb c Separator.

(** The loop of [filepath.Ext], which walks the path from its last byte
    towards the first: [scanned] is what is still to the left, last byte
    first, and [tail] what was walked over. *)
Fixpoint Ext_loop (scanned tail : list ascii) : list ascii :=
  match scanned with
  | [] => []
  | c :: more =>
      if IsPathSeparator c then []
      else if Ascii.eqb c "."%char then c :: tail
      else Ext_loop more (c :: tail)
  end.

(** [filepath.Ext(path)]: the suffix that starts at the last dot of the last
    element of [path], empty if that element has no dot. *)
Definition Ext (path : string) : string :=
  string_of_list_ascii (Ext_loop (rev (list_ascii_of_string path)) []).

(** Trailing separators dropped, on the reversed path. *)
Fixpoint strip_seps (r : list ascii) : list ascii :=
  match r with
  | c :: more => if IsPathSeparator c then strip_seps more else r
  | [] => []
  end.

(** The last element, collected from the reversed path up to a separator. *)
Fixpoint last_elem (r acc : list ascii) : list ascii :=
  match r with
  | c :: more => if IsPathSeparator c then acc else last_elem more (c :: acc)
  | [] => acc
  end.

(** [filepath.Base(path)] (Unix: no volume name): "." for the empty path,
    the separator for a path of separators only, the last element
    otherwise. *)
Definition Base (path : string) : string :=
  match path with
  | EmptyString => "."
  | _ =>
      match last_elem (strip_seps (rev (list_ascii_of_string path))) [] with
      | [] => String Separator EmptyString
      | e => string_of_list_ascii e
      end
  end.

End filepath.

Module os.

(** What [os.Stat] reports of a file: its name and its mode bits. *)
Record FileInfo : Type := mkFileInfo { Name : string; Mode : Z }.

Definition ModeDir : Z := Z.shiftl 1 31.
Definition ModeSymlink : Z := Z.shiftl 1 27.
Definition ModeDevice : Z := Z.shiftl 1 26.
Definition ModeNamedPipe : Z := Z.shiftl 1 25.
Definition ModeSocket : Z := Z.shiftl 1 24.
Definition ModeCharDevice : Z := Z.shiftl 1 21.
Definition ModeIrregular : Z := Z.shiftl 1 19.
Definition ModeType : Z :=
  Z.lor ModeDir (Z.lor ModeSymlink (Z.lor ModeNamedPipe (Z.lor ModeSocket
    (Z.lor ModeDevice (Z.lor ModeCharDevice ModeIrregular))))).

(** [FileMode.IsDir], [FileMode.IsRegular] and [FileInfo.IsDir]. *)
Definition FileMode_IsDir (m : Z) : bool := negb (Z.land m ModeDir =? 0).
Definition FileMode_IsRegular (m : Z) : bool := Z.land m ModeType =? 0.
Definition IsDir (s : FileInfo) : bool := FileMode_IsDir (Mode s).

End os.

(** ** The file system

    [model.FilePath] is defined outside this package; its operations, and what
    [os.Stat] finds on disk, are the parameters of the development. *)
Record FileSystem : Type := mkFileSystem {
  (** what is at a path, for [os.Stat] *)
  lookup_path : string -> os.FileInfo + error;
  (** [FilePath.Read]: the whole content of a file *)
  Read : FilePath -> string + error;
  (** [FilePath.ReadDir]: the names of the entries of a directory, in order *)
  ReadDir : FilePath -> list string + error;
  (** [FilePath.Join]: the path of an entry of a directory *)
  Join : FilePath -> string -> FilePath;
  (** [FilePath.Base]: the name a path ends with *)
  Base : FilePath -> string
}.

(** [os.Stat(name)]: a [FileInfo] and no error, or no [FileInfo] (nil) and an
    error. *)
Definition os_Stat (fs : FileSystem) (name : string)
  : option os.FileInfo * option error :=
  match lookup_path fs name with
  | inl s => (Some s, None)
  | inr err => (None, Some err)
  end.

(** A method call [s.f()] on a [FileInfo] interface value: on the nil
    interface it is a nil dereference, a panic. *)
Definition call {A} (s : option os.FileInfo) (f : os.FileInfo -> A) : M A :=
  match s with
  | Some fi => ret (f fi)
  | None => Panicked
  end.

(** [s[0]]: the first byte of a string, out of range on the empty string. *)
Definition byte0 (s : string) : M ascii :=
  match s with
  | String c _ => ret c
  | EmptyString => Panicked
  end.

(** ** The tutorial tree *)

(** A value of interface type [Tutorial] that points at a node. *)
#[warnings="-register-all"]
Inductive Tutorial : Type :=
| ptrLesson (filepath : FilePath) (content : string)
| ptrCourse (filepath : FilePath) (children : list Tutorial)
| ptrTopCourse (filepath : FilePath) (children : list Tutorial).

(** The three structs. *)
Record Lesson : Type := mkLesson {
  Lesson_filepath : FilePath;
  Lesson_content : string
}.

Record Course : Type := mkCourse {
  Course_filepath : FilePath;
  Course_children : list Tutorial
}.

Record TopCourse : Type := mkTopCourse {
  TopCourse_filepath : FilePath;
  TopCourse_children : list Tutorial
}.

(** A pointer to a struct stored in a [Tutorial]. *)
Definition of_Lesson (l : Lesson) : Tutorial :=
  ptrLesson (Lesson_filepath l) (Lesson_content l).
Definition of_Course (c : Course) : Tutorial :=
  ptrCourse (Course_filepath c) (Course_children c).
Definition of_TopCourse (t : TopCourse) : Tutorial :=
  ptrTopCourse (TopCourse_filepath t) (TopCourse_children t).

(** What a result of type [Tutorial] can hold: the nil interface, a nil
    [*Lesson] (what [return scanFile(root)] makes of scanFile's nil), or a
    node. *)
Inductive Tutorial_value : Type :=
| nil_Tutorial
| nil_Lesson
| node (t : Tutorial).

Definition tree_of (v : Tutorial_value) : option Tutorial :=
  match v with
  | node t => Some t
  | _ => None
  end.

Section Methods.

Variable fs : FileSystem.

Definition Name (t : Tutorial) : string :=
  match t with
  | ptrLesson filepath _ => Base fs filepath
  | ptrCourse filepath _ => Base fs filepath
  | ptrTopCourse _ _ => EmptyString
  end.

Definition Path (t : Tutorial) : FilePath :=
  match t with
  | ptrLesson filepath _ => filepath
  | ptrCourse filepath _ => filepath
  | ptrTopCourse filepath _ => filepath
  end.

Definition Content (t : Tutorial) : string :=
  match t with
  | ptrLesson _ content => content
  | ptrCourse _ _ => EmptyString
  | ptrTopCourse _ _ => EmptyString
  end.

Definition Children (t : Tutorial) : list Tutorial :=
  match t with
  | ptrLesson _ _ => []
  | ptrCourse _ children => children
  | ptrTopCourse _ children => children
  end.

End Methods.

(** How one round of a [for ... range] loop ends: the loop goes on with the
    list built so far, or the enclosing function returns. *)
Inductive round (R : Type) : Type :=
| Continue (items : list Tutorial)
| Return (r : R).
Arguments Continue {R} items.
Arguments Return {R} r.

(** ** The desirability filters *)

Definition badLeadingChar : string := "~.#".

Section Loader.

Variable fs : FileSystem.

Definition isDesirableFile (n : FilePath) : M bool :=
  let '(s, err) := os_Stat fs n in
  match err with
  | Some err =>
      let* name := call s os.Name in
      let* _ := glog_Info ("Stat error on " +:+ name +:+ Error err) in
      ret false
  | None =>
      let* isDir := call s os.IsDir in
      if isDir then
        let* name := call s os.Name in
        let* _ := glog_Info ("Ignoring NON-file " +:+ name) in
        ret false
      else
        let* mode := call s os.Mode in
        if negb (os.FileMode_IsRegular mode) then
          let* name := call s os.Name in
          let* _ := glog_Info ("Ignoring irregular file " +:+ name) in
          ret false
        else
          let* name := call s os.Name in
          if negb (String.eqb (filepath.Ext name) ".md") then
            let* name := call s os.Name in
            let* _ := glog_Info ("Ignoring non markdown file " +:+ name) in
            ret false
          else
            let* name := call s os.Name in
            let base := filepath.Base name in
            let* b := byte0 base in
            if Strings.Index badLeadingChar (Strings.of_byte b) >? -1 then
              let* name := call s os.Name in
              let* _ :=
                glog_Info ("Ignoring because bad leading char: " +:+ name) in
              ret false
            else ret true
  end.

Definition isDesirableDir (n : FilePath) : M bool :=
  let '(s, err) := os_Stat fs n in
  match err with
  | Some err =>
      let* name := call s os.Name in
      let* _ := glog_Info ("Stat error on " +:+ name +:+ Error err) in
      ret false
  | None =>
      let* isDir := call s os.IsDir in
      if negb isDir then
        let* name := call s os.Name in
        let* _ := glog_Info ("Ignoring NON-dir " +:+ name) in
        ret false
      else
        let* name := call s os.Name in
        if String.eqb name "." || String.eqb name "./" || String.eqb name ".."
        then ret true
        else
          let* name := call s os.Name in
          if Strings.HasPrefix (filepath.Base name) "." then
            let* name := call s os.Name in
            let* _ := glog_Info ("Ignoring dot dir " +:+ name) in
            ret false
          else ret true
  end.

(** ** The scanner *)

(** [scanFile] gives a Lesson and no error, or nil and the read error. *)
Definition scanFile (n : FilePath) : Lesson + error :=
  match Read fs n with
  | inr err => inr err
  | inl contents => inl (mkLesson n contents)
  end.

(** The body of the loops of [scanDir] and [LoadMany], for the candidate [p]:
    a desirable file is read and appended, a desirable directory is scanned
    and appended unless nothing is left of it. [scan] is [scanDir]. *)
Definition gather {R} (scan : FilePath -> M (option Course * option error))
    (fail : error -> R) (p : FilePath) (items : list Tutorial) : M (round R) :=
  let* file := isDesirableFile p in
  if file then
    match scanFile p with
    | inr err => ret (Return (fail err))
    | inl l => ret (Continue (items ++ [of_Lesson l]))
    end
  else
    let* dir := isDesirableDir p in
    if dir then
      let* r := scan p in
      match r with
      | (_, Some err) => ret (Return (fail err))
      | (Some c, None) => ret (Continue (items ++ [of_Course c]))
      | (None, None) => ret (Continue items)
      end
    else ret (Continue items).

(** [for _, f := range files { p := d.Join(f); ... }] in [scanDir]. *)
Fixpoint range_files (scan : FilePath -> M (option Course * option error))
    (d : FilePath) (files : list string) (items : list Tutorial)
  : M (round (option Course * option error)) :=
  match files with
  | [] => ret (Continue items)
  | f :: rest =>
      let* r := gather scan (fun err => (None, Some err)) (Join fs d f) items in
      match r with
      | Continue items' => range_files scan d rest items'
      | Return r => ret (Return r)
      end
  end.

(** [scanDir]; [fuel] bounds the depth of the directories it descends. *)
Fixpoint scanDir (fuel : nat) (d : FilePath)
  : M (option Course * option error) :=
  match fuel with
  | O => OutOfFuel
  | S fuel =>
      match ReadDir fs d with
      | inr err => ret (None, Some err)
      | inl files =>
          let* r := range_files (scanDir fuel) d files [] in
          match r with
          | Return r => ret r
          | Continue items =>
              if 0 <? Z.of_nat (length items)
              then ret (Some (mkCourse d items), None)
              else ret (None, None)
          end
      end
  end.

(** ** The loaders *)

Definition LoadOne (fuel : nat) (root : FilePath)
  : M (Tutorial_value * option error) :=
  let cannot :=
    (nil_Tutorial, Some (errors_New ("Cannot process " +:+ root))) in
  let* file := isDesirableFile root in
  if file then
    match scanFile root with
    | inl l => ret (node (of_Lesson l), None)
    | inr err => ret (nil_Lesson, Some err)
    end
  else
    let* dir := isDesirableDir root in
    if dir then
      let* r := scanDir fuel root in
      match r with
      | (_, Some err) => ret (nil_Tutorial, Some err)
      | (Some c, None) =>
          ret (node (of_TopCourse (mkTopCourse root (Course_children c))), None)
      | (None, None) => ret cannot
      end
    else ret cannot.

(** [for _, f := range fileNames { ... }] in [LoadMany]. *)
Fixpoint range_fileNames (fuel : nat) (fileNames : list FilePath)
    (items : list Tutorial) : M (round (Tutorial_value * option error)) :=
  match fileNames with
  | [] => ret (Continue items)
  | f :: rest =>
      let* r :=
        gather (scanDir fuel) (fun err => (nil_Tutorial, Some err)) f items in
      match r with
      | Continue items' => range_fileNames fuel rest items'
      | Return r => ret (Return r)
      end
  end.

Definition LoadMany (fuel : nat) (fileNames : list FilePath)
  : M (Tutorial_value * option error) :=
  match fileNames with
  | [] => ret (nil_Tutorial, Some (errors_New "no files?"))
  | [root] => LoadOne fuel root
  | _ =>
      let* r := range_fileNames fuel fileNames [] in
      match r with
      | Return r => ret r
      | Continue items =>
          if 0 <? Z.of_nat (length items)
          then ret (node (of_TopCourse (mkTopCourse EmptyString items)), None)
          else ret (nil_Tutorial, Some (errors_New "Nothing useful found"))
      end
  end.

End Loader.

(** ** Formatting, as package [fmt] does it for the formats used here *)

Module fmt.

(** The line feed and the double quote. *)
Definition LF : string := String (ascii_of_nat 10) EmptyString.
Definition DQ : string := String (ascii_of_nat 34) EmptyString.

Fixpoint blanks (n : nat) : string :=
  match n with
  | O => EmptyString
  | S n => String " "%char (blanks n)
  end.

(** [fmt.Sprintf("%" + strconv.Itoa(width) + "s", arg)] for a positive
    [width]: [arg] right-justified in a field of [width] columns. (fmt honours
    a width up to 10^6; the theorems on the printer keep the indentation
    below that.) *)
Definition Sprintf_width_s (width : Z) (arg : string) : string :=
  blanks (Z.to_nat width - String.length arg) +:+ arg.

Definition max_width : Z := 1000000.

(** [fmt.Sprintf(format, args...)] for string operands and formats whose only
    verb is [%s]: each verb is replaced by the next operand, every other byte
    is copied. *)
Fixpoint Sprintf (format : string) (args : list string) : string :=
  match format with
  | String "%"%char (String "s"%char rest) =>
      match args with
      | a :: args => a +:+ Sprintf rest args
      | [] => "%!s(MISSING)" +:+ Sprintf rest []
      end
  | String c rest => String c (Sprintf rest args)
  | EmptyString => EmptyString
  end.

(** [fmt.Fprintf(w, format, args...)] on a writer that keeps what it is
    given: the writer is the text written so far. *)
Definition Fprintf (w : string) (format : string) (args : list string)
  : string :=
  w +:+ Sprintf format args.

End fmt.

(** ** The debug printer *)

Record TutorialPrinter : Type := mkTutorialPrinter {
  indent : Z;
  w : string
}.

Definition NewTutorialPrinter (w : string) : TutorialPrinter :=
  mkTutorialPrinter 0 w.

Definition spaces (indent : Z) : string :=
  if indent <? 1 then EmptyString
  else fmt.Sprintf_width_s indent " ".

Section Printer.

Variable fs : FileSystem.

(** [util.SampleString], from another package of the repository. *)
Variable SampleString : string -> Z -> string.

Definition TutorialPrinter_VisitLesson (l : Lesson) (v : TutorialPrinter)
  : TutorialPrinter :=
  mkTutorialPrinter (indent v)
    (fmt.Fprintf (w v)
       (spaces (indent v) +:+ "%s --- %s..." +:+ fmt.LF)
       [Name fs (of_Lesson l); SampleString (Content (of_Lesson l)) 60]).

(** [accept x v] is the call [x.Accept(v)]. *)
Definition TutorialPrinter_VisitCourse
    (accept : Tutorial -> TutorialPrinter -> TutorialPrinter)
    (c : Course) (v : TutorialPrinter) : TutorialPrinter :=
  let v := mkTutorialPrinter (indent v)
             (fmt.Fprintf (w v) (spaces (indent v) +:+ "%s" +:+ fmt.LF)
                [Name fs (of_Course c)]) in
  let v := mkTutorialPrinter (wrap_int (indent v + 3)) (w v) in
  let v := fold_left (fun v x => accept x v) (Course_children c) v in
  mkTutorialPrinter (wrap_int (indent v - 3)) (w v).

Definition TutorialPrinter_VisitTopCourse
    (accept : Tutorial -> TutorialPrinter -> TutorialPrinter)
    (t : TopCourse) (v : TutorialPrinter) : TutorialPrinter :=
  fold_left (fun v x => accept x v) (TopCourse_children t) v.

(** [t.Accept(v)] for a [*TutorialPrinter]: the node calls the method of the
    visitor that is named after its own type. *)
Fixpoint TutorialPrinter_Accept (t : Tutorial) (v : TutorialPrinter)
  : TutorialPrinter :=
  match t with
  | ptrLesson filepath content =>
      TutorialPrinter_VisitLesson (mkLesson filepath content) v
  | ptrCourse filepath children =>
      TutorialPrinter_VisitCourse TutorialPrinter_Accept
        (mkCourse filepath children) v
  | ptrTopCourse filepath children =>
      TutorialPrinter_VisitTopCourse TutorialPrinter_Accept
        (mkTopCourse filepath children) v
  end.

End Printer.

(** ** The content parser *)

(** Modelled from the spec: [model.ParsedFile] and [model.NewParsedFile],
    which are declared in another package; a parsed-file result wraps the
    pair (path, blocks). *)
Record ParsedFile (Block : Type) : Type := NewParsedFile {
  ParsedFile_path : FilePath;
  ParsedFile_blocks : list Block
}.
Arguments NewParsedFile {Block} _ _.
Arguments ParsedFile_path {Block} _.
Arguments ParsedFile_blocks {Block} _.

Record TutorialParser (Block : Type) : Type := mkTutorialParser {
  label : Label;
  parsedFiles : list (ParsedFile Block)
}.
Arguments mkTutorialParser {Block} _ _.
Arguments label {Block} _.
Arguments parsedFiles {Block} _.

Definition NewTutorialParser {Block} (l : Label) : TutorialParser Block :=
  mkTutorialParser l [].

Definition Files {Block} (v : TutorialParser Block) : list (ParsedFile Block) :=
  parsedFiles v.

Section Parser.

(** The blocks of package [model] and [lexer.Parse], which maps the text of a
    file to the blocks found under each label. *)
Variable Block : Type.
Variable Parse : string -> gmap Label (list Block).

Definition TutorialParser_VisitLesson (l : Lesson) (v : TutorialParser Block)
  : TutorialParser Block :=
  let m := Parse (Content (of_Lesson l)) in
  match m !! label v with
  | Some blocks =>
      mkTutorialParser (label v)
        (parsedFiles v ++ [NewParsedFile (Path (of_Lesson l)) blocks])
  | None => v
  end.

Definition TutorialParser_VisitCourse
    (accept : Tutorial -> TutorialParser Block -> TutorialParser Block)
    (c : Course) (v : TutorialParser Block) : TutorialParser Block :=
  fold_left (fun v x => accept x v) (Course_children c) v.

Definition TutorialParser_VisitTopCourse
    (accept : Tutorial -> TutorialParser Block -> TutorialParser Block)
    (t : TopCourse) (v : TutorialParser Block) : TutorialParser Block :=
  fold_left (fun v x => accept x v) (TopCourse_children t) v.

Fixpoint TutorialParser_Accept (t : Tutorial) (v : TutorialParser Block)
  : TutorialParser Block :=
  match t with
  | ptrLesson filepath content =>
      TutorialParser_VisitLesson (mkLesson filepath content) v
  | ptrCourse filepath children =>
      TutorialParser_VisitCourse TutorialParser_Accept
        (mkCourse filepath children) v
  | ptrTopCourse filepath children =>
      TutorialParser_VisitTopCourse TutorialParser_Accept
        (mkTopCourse filepath children) v
  end.

End Parser.

(** ** The navigation printer *)

(** Modelled from the spec: the state of the NavPrinter, whose code is not
    part of the sources at hand: the text written so far, the nesting depth
    it writes at, the counter behind the ids [n<k>] and the counter behind
    the leaf handles [L<i>]. *)
Record TutorialNavPrinter : Type := mkTutorialNavPrinter {
  nav_w : string;
  nav_depth : nat;
  nav_containers : Z;
  nav_lessons : Z
}.

(** Modelled from the spec: a fresh NavPrinter; ids start at 1, lesson
    indices at 0. *)
Definition NewTutorialNavPrinter (w : string) : TutorialNavPrinter :=
  mkTutorialNavPrinter w 0 0 0.

Section NavPrinter.

Variable fs : FileSystem.

(** Modelled from the spec: one line of the fragment, indented by 2 spaces per
    nesting depth and ended by a newline. *)
Definition nav_line (depth : nat) (text : string) (w : string) : string :=
  w +:+ fmt.blanks (2 * depth) +:+ text +:+ fmt.LF.

(** Modelled from the spec: an empty name displays as the literal [.]. *)
Definition nav_name (name : string) : string :=
  match name with
  | EmptyString => "."
  | _ => name
  end.

(** Modelled from the spec: how the NavPrinter renders a node. The node is
    wrapped in a [lnav1] division that carries its name; the id [n<k>] is
    assigned when the node is entered; a node without children gets the leaf
    handle [assureActive('L<i>')] with the next lesson index, a node with
    children the handle [toggle('n<k>')]; the body division [n<k>] holds the
    children; the outermost node is open, every node beneath it closed. *)
Definition Nav_render
    (accept : Tutorial -> TutorialNavPrinter -> TutorialNavPrinter)
    (t : Tutorial) (v : TutorialNavPrinter) : TutorialNavPrinter :=
  let d := nav_depth v in
  let k := nav_containers v + 1 in
  let name := nav_name (Name fs t) in
  let leaf := match Children t with [] => true | _ => false end in
  let handle :=
    if leaf then "assureActive('L" +:+ pretty (nav_lessons v) +:+ "')"
    else "toggle('n" +:+ pretty k +:+ "')" in
  let state := match d with O => "block" | S _ => "none" end in
  let out := nav_line d
    ("<div class='lnav1' data-name=" +:+ fmt.DQ +:+ name +:+ fmt.DQ +:+ ">")
    (nav_w v) in
  let out := nav_line (d + 1)
    ("<div onclick=" +:+ fmt.DQ +:+ handle +:+ fmt.DQ +:+ ">" +:+ name
       +:+ "</div>") out in
  let out := nav_line (d + 1)
    ("<div id='n" +:+ pretty k +:+ "' style='display: " +:+ state +:+ ";'>")
    out in
  let v := mkTutorialNavPrinter out (d + 2) k
             (if leaf then nav_lessons v + 1 else nav_lessons v) in
  let v := fold_left (fun v x => accept x v) (Children t) v in
  let out := nav_line (d + 1) "</div>" (nav_w v) in
  let out := nav_line d "</div>" out in
  mkTutorialNavPrinter out d (nav_containers v) (nav_lessons v).

(** Modelled from the spec: [VisitLesson] of the NavPrinter; a Lesson is
    rendered as a node without children. *)
Definition TutorialNavPrinter_VisitLesson (l : Lesson) (v : TutorialNavPrinter)
  : TutorialNavPrinter :=
  Nav_render (fun _ v => v) (of_Lesson l) v.

(** Modelled from the spec: [VisitCourse] of the NavPrinter. *)
Definition TutorialNavPrinter_VisitCourse
    (accept : Tutorial -> TutorialNavPrinter -> TutorialNavPrinter)
    (c : Course) (v : TutorialNavPrinter) : TutorialNavPrinter :=
  Nav_render accept (of_Course c) v.

(** Modelled from the spec: [VisitTopCourse] of the NavPrinter; the root is
    rendered as a node like the others, under the name [.]. *)
Definition TutorialNavPrinter_VisitTopCourse
    (accept : Tutorial -> TutorialNavPrinter -> TutorialNavPrinter)
    (t : TopCourse) (v : TutorialNavPrinter) : TutorialNavPrinter :=
  Nav_render accept (of_TopCourse t) v.

(** [t.Accept(v)] for the NavPrinter (the methods it calls are modelled from
    the spec). *)
Fixpoint TutorialNavPrinter_Accept (t : Tutorial) (v : TutorialNavPrinter)
  : TutorialNavPrinter :=
  match t with
  | ptrLesson filepath content =>
      TutorialNavPrinter_VisitLesson (mkLesson filepath content) v
  | ptrCourse filepath children =>
      TutorialNavPrinter_VisitCourse TutorialNavPrinter_Accept
        (mkCourse filepath children) v
  | ptrTopCourse filepath children =>
      TutorialNavPrinter_VisitTopCourse TutorialNavPrinter_Accept
        (mkTopCourse filepath children) v
  end.

End NavPrinter.

(** ** Walking a tree *)

(** The nodes of a tree in pre-order: a node before its children, the children
    in stored order. *)
Fixpoint preorder (t : Tutorial) : list Tutorial :=
  match t with
  | ptrLesson _ _ => [t]
  | ptrCourse _ children => t :: flat_map preorder children
  | ptrTopCourse _ children => t :: flat_map preorder children
  end.

Definition is_Lesson (t : Tutorial) : bool :=
  match t with ptrLesson _ _ => true | _ => false end.

Definition is_TopCourse (t : Tutorial) : bool :=
  match t with ptrTopCourse _ _ => true | _ => false end.

(** The Lessons of a tree, in document order. *)
Definition lessons (t : Tutorial) : list Tutorial :=
  List.filter is_Lesson (preorder t).

(** How many TopCourse nodes a tree holds. *)
Definition count_TopCourse (t : Tutorial) : nat :=
  length (List.filter is_TopCourse (preorder t)).

(** The shape the data model asks of a node: a Lesson has no children, a
    Course has at least one. *)
Definition node_shape (x : Tutorial) : Prop :=
  match x with
  | ptrLesson _ _ => Children x = []
  | ptrCourse _ _ => Children x <> []
  | ptrTopCourse _ _ => True
  end.

(** Every node of the tree has that shape. *)
Definition well_shaped (t : Tutorial) : Prop :=
  forall x, In x (preorder t) -> node_shape x.

(** What holds of every node the scanner builds. *)
Definition scanned (t : Tutorial) : Prop :=
  well_shaped t /\ count_TopCourse t = 0%nat.

(** *** The visitors, with the calls of their methods recorded

    Each walk below is the [Accept] of one visitor with one addition: the node
    is put on record when its [Visit] method is entered. *)

Section Recorded.

Variable fs : FileSystem.
Variable SampleString : string -> Z -> string.
Variable Block : Type.
Variable Parse : string -> gmap Label (list Block).

Fixpoint Printer_walk (t : Tutorial) (s : TutorialPrinter * list Tutorial)
  : TutorialPrinter * list Tutorial :=
  let v := s.1 in
  let seen := (s.2 ++ [t])%list in
  match t with
  | ptrLesson filepath content =>
      (TutorialPrinter_VisitLesson fs SampleString
         (mkLesson filepath content) v,
       seen)
  | ptrCourse filepath children =>
      let v := mkTutorialPrinter (indent v)
                 (fmt.Fprintf (w v) (spaces (indent v) +:+ "%s" +:+ fmt.LF)
                    [Name fs t]) in
      let v := mkTutorialPrinter (wrap_int (indent v + 3)) (w v) in
      let s := fold_left (fun s x => Printer_walk x s) children (v, seen) in
      (mkTutorialPrinter (wrap_int (indent s.1 - 3)) (w s.1), s.2)
  | ptrTopCourse filepath children =>
      fold_left (fun s x => Printer_walk x s) children (v, seen)
  end.

Fixpoint Parser_walk (t : Tutorial) (s : TutorialParser Block * list Tutorial)
  : TutorialParser Block * list Tutorial :=
  let v := s.1 in
  let seen := (s.2 ++ [t])%list in
  match t with
  | ptrLesson filepath content =>
      (TutorialParser_VisitLesson Block Parse (mkLesson filepath content) v,
       seen)
  | ptrCourse filepath children =>
      fold_left (fun s x => Parser_walk x s) children (v, seen)
  | ptrTopCourse filepath children =>
      fold_left (fun s x => Parser_walk x s) children (v, seen)
  end.

(** Modelled from the spec, as [Nav_render] is: the rendering of a node with
    the record threaded through the visits of the children. *)
Fixpoint Nav_walk (t : Tutorial) (s : TutorialNavPrinter * list Tutorial)
  : TutorialNavPrinter * list Tutorial :=
  let v := s.1 in
  let seen := (s.2 ++ [t])%list in
  let d := nav_depth v in
  let k := nav_containers v + 1 in
  let name := nav_name (Name fs t) in
  let leaf := match Children t with [] => true | _ => false end in
  let handle :=
    if leaf then "assureActive('L" +:+ pretty (nav_lessons v) +:+ "')"
    else "toggle('n" +:+ pretty k +:+ "')" in
  let state := match d with O => "block" | S _ => "none" end in
  let out := nav_line d
    ("<div class='lnav1' data-name=" +:+ fmt.DQ +:+ name +:+ fmt.DQ +:+ ">")
    (nav_w v) in
  let out := nav_line (d + 1)
    ("<div onclick=" +:+ fmt.DQ +:+ handle +:+ fmt.DQ +:+ ">" +:+ name
       +:+ "</div>") out in
  let out := nav_line (d + 1)
    ("<div id='n" +:+ pretty k +:+ "' style='display: " +:+ state +:+ ";'>")
    out in
  let v := mkTutorialNavPrinter out (d + 2) k
             (if leaf then nav_lessons v + 1 else nav_lessons v) in
  let s :=
    match t with
    | ptrLesson _ _ => (v, seen)
    | ptrCourse _ children =>
        fold_left (fun s x => Nav_walk x s) children (v, seen)
    | ptrTopCourse _ children =>
        fold_left (fun s x => Nav_walk x s) children (v, seen)
    end in
  let out := nav_line (d + 1) "</div>" (nav_w s.1) in
  let out := nav_line d "</div>" out in
  (mkTutorialNavPrinter out d (nav_containers s.1) (nav_lessons s.1), s.2).

End Recorded.

(** ** Runs that end *)

(** [scanDir], [LoadOne] and [LoadMany] return [r]: some bound on the depth is
    enough for the run to end normally with [r]. *)
Definition scanDir_returns (fs : FileSystem) (d : FilePath)
    (r : option Course * option error) : Prop :=
  exists fuel, returns (scanDir fs fuel d) r.

Definition LoadOne_returns (fs : FileSystem) (root : FilePath)
    (r : Tutorial_value * option error) : Prop :=
  exists fuel, returns (LoadOne fs fuel root) r.

Definition LoadMany_returns (fs : FileSystem) (fileNames : list FilePath)
    (r : Tutorial_value * option error) : Prop :=
  exists fuel, returns (LoadMany fs fuel fileNames) r.


(** What the entry [f] of the directory [d] adds to the list [scanDir] builds,
    in the words of the specification: a desirable file is read into a Lesson;
    otherwise a desirable directory is scanned, and adds its Course if the
    scan yields one; any other entry adds nothing. *)
Inductive contributes (fs : FileSystem) (d : FilePath) (f : string)
  : list Tutorial -> Prop :=
| contributes_Lesson content :
    returns (isDesirableFile fs (Join fs d f)) true ->
    Read fs (Join fs d f) = inl content ->
    contributes fs d f [ptrLesson (Join fs d f) content]
| contributes_Course c :
    returns (isDesirableFile fs (Join fs d f)) false ->
    returns (isDesirableDir fs (Join fs d f)) true ->
    scanDir_returns fs (Join fs d f) (Some c, None) ->
    contributes fs d f [of_Course c]
| contributes_pruned :
    returns (isDesirableFile fs (Join fs d f)) false ->
    returns (isDesirableDir fs (Join fs d f)) true ->
    scanDir_returns fs (Join fs d f) (None, None) ->
    contributes fs d f []
| contributes_nothing :
    returns (isDesirableFile fs (Join fs d f)) false ->
    returns (isDesirableDir fs (Join fs d f)) false ->
    contributes fs d f [].

(** The result of [scanDir] on [d] once the list [items] is built. *)
Definition pruned_Course (d : FilePath) (items : list Tutorial)
  : option Course :=
  match items with
  | [] => None
  | _ => Some (mkCourse d items)
  end.

(** What one round of the loops can end with, case by case: [gathers]
    describes the rounds of [gather] that end normally. *)
Inductive gathers (R : Type) (fs : FileSystem)
    (scan : FilePath -> M (option Course * option error))
    (fail : error -> R) (p : FilePath) (items : list Tutorial)
  : round R -> Prop :=
| gathers_Lesson content :
    returns (isDesirableFile fs p) true ->
    Read fs p = inl content ->
    gathers R fs scan fail p items
      (Continue (items ++ [ptrLesson p content])%list)
| gathers_read_error err :
    returns (isDesirableFile fs p) true ->
    Read fs p = inr err ->
    gathers R fs scan fail p items (Return (fail err))
| gathers_Course c :
    returns (isDesirableFile fs p) false ->
    returns (isDesirableDir fs p) true ->
    returns (scan p) (Some c, None) ->
    gathers R fs scan fail p items (Continue (items ++ [of_Course c])%list)
| gathers_pruned :
    returns (isDesirableFile fs p) false ->
    returns (isDesirableDir fs p) true ->
    returns (scan p) (None, None) ->
    gathers R fs scan fail p items (Continue items)
| gathers_scan_error c err :
    returns (isDesirableFile fs p) false ->
    returns (isDesirableDir fs p) true ->
    returns (scan p) (c, Some err) ->
    gathers R fs scan fail p items (Return (fail err))
| gathers_nothing :
    returns (isDesirableFile fs p) false ->
    returns (isDesirableDir fs p) false ->
    gathers R fs scan fail p items (Continue items).
Arguments gathers {R} fs scan fail p items _.

(** The ways [LoadOne] ends normally, case by case. *)
Inductive LoadOne_ends (fs : FileSystem) (fuel : nat) (root : FilePath)
  : Tutorial_value * option error -> Prop :=
| one_Lesson content :
    returns (isDesirableFile fs root) true ->
    Read fs root = inl content ->
    LoadOne_ends fs fuel root (node (ptrLesson root content), None)
| one_read_error err :
    returns (isDesirableFile fs root) true ->
    Read fs root = inr err ->
    LoadOne_ends fs fuel root (nil_Lesson, Some err)
| one_TopCourse c :
    returns (isDesirableFile fs root) false ->
    returns (isDesirableDir fs root) true ->
    returns (scanDir fs fuel root) (Some c, None) ->
    LoadOne_ends fs fuel root
      (node (ptrTopCourse root (Course_children c)), None)
| one_scan_error c err :
    returns (isDesirableFile fs root) false ->
    returns (isDesirableDir fs root) true ->
    returns (scanDir fs fuel root) (c, Some err) ->
    LoadOne_ends fs fuel root (nil_Tutorial, Some err)
| one_pruned :
    returns (isDesirableFile fs root) false ->
    returns (isDesirableDir fs root) true ->
    returns (scanDir fs fuel root) (None, None) ->
    LoadOne_ends fs fuel root
      (nil_Tutorial, Some (errors_New ("Cannot process " +:+ root)))
| one_undesirable :
    returns (isDesirableFile fs root) false ->
    returns (isDesirableDir fs root) false ->
    LoadOne_ends fs fuel root
      (nil_Tutorial, Some (errors_New ("Cannot process " +:+ root))).

(** What [LoadMany] makes of the list its loop has built. *)
Definition TopCourse_of_many (items : list Tutorial)
  : Tutorial_value * option error :=
  match items with
  | [] => (nil_Tutorial, Some (errors_New "Nothing useful found"))
  | _ => (node (ptrTopCourse EmptyString items), None)
  end.

(** ** The filters, in the words of the specification *)

(** The first byte of [s] is one of [set]. *)
Definition first_byte_in (s : string) (set : list ascii) : bool :=
  match s with
  | String c _ => existsb (Ascii.eqb c) set
  | EmptyString => false
  end.

(** A file is wanted when it is a regular file and no directory, its
    extension is [.md], and its base name does not start with [~], [.] or
    [#]. *)
Definition wanted_file (s : os.FileInfo) : bool :=
  negb (os.IsDir s)
  && os.FileMode_IsRegular (os.Mode s)
  && String.eqb (filepath.Ext (os.Name s)) ".md"
  && negb (first_byte_in (filepath.Base (os.Name s))
             ["~"%char; "."%char; "#"%char]).

(** A directory is wanted when it is a directory and its name is one of the
    literals [.], [./], [..] or a name that does not start with a dot (the
    dot is looked for in the base name of the name, which is the name itself
    for a name without separator). *)
Definition wanted_dir (s : os.FileInfo) : bool :=
  os.IsDir s
  && (String.eqb (os.Name s) "." || String.eqb (os.Name s) "./"
      || String.eqb (os.Name s) ".."
      || negb (first_byte_in (filepath.Base (os.Name s)) ["."%char])).

(** ** File systems to run the loader on *)

Inductive on_disk : Type :=
| File (content : string)
| Dir (entries : list string)
| Pipe.

Fixpoint find_path (disk : list (string * on_disk)) (p : string)
  : option on_disk :=
  match disk with
  | [] => None
  | (q, x) :: rest => if String.eqb p q then Some x else find_path rest p
  end.

Definition no_such (op p : string) : error :=
  PathError op p "no such file or directory".

(** The file system that holds the paths of [disk] and nothing else. *)
Definition fs_of (disk : list (string * on_disk)) : FileSystem :=
  mkFileSystem
    (fun p =>
       match find_path disk p with
       | Some (File _) => inl (os.mkFileInfo (filepath.Base p) 420)
       | Some (Dir _) =>
           inl (os.mkFileInfo (filepath.Base p) (Z.lor os.ModeDir 493))
       | Some Pipe =>
           inl (os.mkFileInfo (filepath.Base p) (Z.lor os.ModeNamedPipe 420))
       | None => inr (no_such "stat" p)
       end)
    (fun p =>
       match find_path disk p with
       | Some (File content) => inl content
       | _ => inr (no_such "read" p)
       end)
    (fun p =>
       match find_path disk p with
       | Some (Dir entries) => inl entries
       | _ => inr (no_such "open" p)
       end)
    (fun d f => d +:+ "/" +:+ f)
    filepath.Base.

(** The layout the package documents, with entries the filters drop. *)
Definition benelux : FileSystem := fs_of
  [ ("benelux", Dir ["01_history.md"; "03_belgium"; ".git"; "README.md";
                     "empty"; "notes.txt"; "~draft.md"]);
    ("benelux/01_history.md", File "Once upon a time");
    ("benelux/03_belgium", Dir ["01_tintin.md"; "02_beer.md"]);
    ("benelux/03_belgium/01_tintin.md", File "Tintin");
    ("benelux/03_belgium/02_beer.md", File "Beer");
    ("benelux/.git", Dir ["config.md"]);
    ("benelux/.git/config.md", File "core");
    ("benelux/README.md", File "Overview");
    ("benelux/empty", Dir []);
    ("benelux/notes.txt", File "notes");
    ("benelux/~draft.md", File "draft");
    ("solo.md", File "Alone");
    ("hollow", Dir ["empty"; "notes.txt"]);
    ("hollow/empty", Dir []);
    ("hollow/notes.txt", File "notes") ].

(** A directory whose one entry is a link to a file that is gone: the entry
    is listed, and [os.Stat], which follows links, fails on it. *)
Definition dangling : FileSystem := fs_of
  [ ("links", Dir ["gone.md"]) ].

(** The tree of [benelux], as [LoadOne] builds it. *)
Definition benelux_tree : Tutorial :=
  ptrTopCourse "benelux"
    [ ptrLesson "benelux/01_history.md" "Once upon a time";
      ptrCourse "benelux/03_belgium"
        [ ptrLesson "benelux/03_belgium/01_tintin.md" "Tintin";
          ptrLesson "benelux/03_belgium/02_beer.md" "Beer" ];
      ptrLesson "benelux/README.md" "Overview" ].

(** A lexer that files the whole content as one block under the label [run],
    and a lexer that has the label [run] with no block under it. *)
Definition Parse_whole (content : string) : gmap Label (list string) :=
  {[ "run" := [content] ]}.

Definition Parse_bare (content : string) : gmap Label (list string) :=
  {[ "run" := [] ]}.

(** A sampler that keeps the content as it is. *)
Definition SampleString_all (incoming : string) (max : Z) : string := incoming.

(** The tree [LoadMany] builds for [solo.md] and [benelux]. *)
Definition solo_and_benelux_tree : Tutorial :=
  ptrTopCourse EmptyString
    [ ptrLesson "solo.md" "Alone";
      ptrCourse "benelux" (Children benelux_tree) ].

(** [benelux] with every file locked: the files are found, and no read goes
    through. *)
Definition locked : FileSystem :=
  mkFileSystem (lookup_path benelux)
    (fun p => inr (PathError "read" p "permission denied"))
    (ReadDir benelux) (Join benelux) (Base benelux).

(** ** What the visitors write, node by node *)

(** The texts of a list, one after the other. *)
Definition join_all (texts : list string) : string :=
  fold_right String.append EmptyString texts.

(** The lines of a text, each ended by a newline. *)
Definition unlines (lines : list string) : string :=
  join_all (map (fun line => line +:+ fmt.LF) lines).

(** What the debug printer writes for the tree [t] when its indentation is
    [indent]. *)
Definition Printer_text (fs : FileSystem) (SampleString : string -> Z -> string)
    (t : Tutorial) (indent : Z) : string :=
  w (TutorialPrinter_Accept fs SampleString t
       (mkTutorialPrinter indent EmptyString)).

(** What the content parser keeps of a node for the label [lbl]: the blocks
    the lexer files under [lbl] in the content of a Lesson, if it files
    any. *)
Definition parsed_of {Block} (Parse : string -> gmap Label (list Block))
    (lbl : Label) (x : Tutorial) : option (ParsedFile Block) :=
  match x with
  | ptrLesson filepath content =>
      match Parse content !! lbl with
      | Some blocks => Some (NewParsedFile filepath blocks)
      | None => None
      end
  | _ => None
  end.

(** ** The trees and the texts of the NavPrinter test *)

Definition emptyLesson : Tutorial := ptrLesson EmptyString EmptyString.

Definition course1 : Tutorial := ptrCourse "hey" [emptyLesson].

Definition want_emptyLesson : string := unlines
  [ "<div class='lnav1' data-name=" +:+ fmt.DQ +:+ "." +:+ fmt.DQ +:+ ">";
    "  <div onclick=" +:+ fmt.DQ +:+ "assureActive('L0')" +:+ fmt.DQ
      +:+ ">.</div>";
    "  <div id='n1' style='display: block;'>";
    "  </div>";
    "</div>" ].

Definition want_smallCourse : string := unlines
  [ "<div class='lnav1' data-name=" +:+ fmt.DQ +:+ "hey" +:+ fmt.DQ +:+ ">";
    "  <div onclick=" +:+ fmt.DQ +:+ "toggle('n1')" +:+ fmt.DQ
      +:+ ">hey</div>";
    "  <div id='n1' style='display: block;'>";
    "    <div class='lnav1' data-name=" +:+ fmt.DQ +:+ "." +:+ fmt.DQ +:+ ">";
    "      <div onclick=" +:+ fmt.DQ +:+ "assureActive('L0')" +:+ fmt.DQ
      +:+ ">.</div>";
    "      <div id='n2' style='display: none;'>";
    "      </div>";
    "    </div>";
    "  </div>";
    "</div>" ].

(** ** Names, errors and the place of a node on disk *)

(** A name with no path separator in it, as the names [os.Stat] reports. *)
Definition plain_name (name : string) : bool :=
  forallb (fun c => negb (filepath.IsPathSeparator c))
    (list_ascii_of_string name).

(** An error the file system returned, for a read or for a listing. *)
Definition fs_error (fs : FileSystem) (err : error) : Prop :=
  exists p, Read fs p = inr err \/ ReadDir fs p = inr err.

(** How a node of a loaded tree sits on disk. A Lesson is a desirable file
    with the content read from it. A Course is a desirable directory, and no
    desirable file, that is listed; its children are some of the entries
    listed, in the order of the listing, and there is one at least. *)
Definition from_disk (fs : FileSystem) (x : Tutorial) : Prop :=
  match x with
  | ptrLesson p content =>
      returns (isDesirableFile fs p) true /\ Read fs p = inl content
  | ptrCourse p children =>
      returns (isDesirableFile fs p) false
      /\ returns (isDesirableDir fs p) true
      /\ children <> []
      /\ exists files,
           ReadDir fs p = inl files
           /\ sublist (map Path children) (map (Join fs p) files)
  | ptrTopCourse _ _ => True
  end.

(** Every node of the tree sits on disk in that way. *)
Definition all_from_disk (fs : FileSystem) (t : Tutorial) : Prop :=
  forall x, In x (preorder t) -> from_disk fs x.

(** The Course [scanDir] returns for the directory [q]: it is the Course of
    [q], it has a child, its children are some of the entries of [q] in the
    order of the listing, and every node below sits on disk. *)
Definition listed_Course (fs : FileSystem) (q : FilePath) (c : Course) : Prop :=
  Course_filepath c = q
  /\ Course_children c <> []
  /\ (exists files,
        ReadDir fs q = inl files
        /\ sublist (map Path (Course_children c)) (map (Join fs q) files))
  /\ Forall (all_from_disk fs) (Course_children c).

(** ** The outline the debug printer writes *)

(** How many Courses are nested in a tree, the tree included. *)
Fixpoint height (t : Tutorial) : nat :=
  match t with
  | ptrLesson _ _ => O
  | ptrCourse _ children => S (fold_right Nat.max O (map height children))
  | ptrTopCourse _ children => fold_right Nat.max O (map height children)
  end.

(** The Lessons and the Courses of a tree in pre-order, each with the number
    of Courses it is nested in, counted from [depth]. *)
Fixpoint outline (t : Tutorial) (depth : nat) : list (nat * Tutorial) :=
  match t with
  | ptrLesson _ _ => [(depth, t)]
  | ptrCourse _ children =>
      (depth, t) :: flat_map (fun x => outline x (S depth)) children
  | ptrTopCourse _ children => flat_map (fun x => outline x depth) children
  end.

(** The line of a node nested in [row.1] Courses. *)
Definition Printer_line (fs : FileSystem)
    (SampleString : string -> Z -> string) (row : nat * Tutorial) : string :=
  match row.2 with
  | ptrLesson filepath content =>
      fmt.blanks (3 * row.1) +:+ Base fs filepath +:+ " --- "
        +:+ SampleString content 60 +:+ "..." +:+ fmt.LF
  | ptrCourse filepath _ =>
      fmt.blanks (3 * row.1) +:+ Base fs filepath +:+ fmt.LF
  | ptrTopCourse _ _ => EmptyString
  end.

(** * Properties *)

(** ** Runs *)

Lemma bind_Done {A B} (m : M A) (f : A -> M B) (b : B) (l : list string) :
  bind m f = Done b l ->
  exists a l1 l2, m = Done a l1 /\ f a = Done b l2 /\ l = (l1 ++ l2)%list.
Proof.
  unfold bind. destruct m as [a l1| |]; try discriminate.
  destruct (f a) as [b' l2| |] eqn:Hf; try discriminate.
  intros [= <- <-]. eauto 6.
Qed.

Lemma returns_bind {A B} (m : M A) (f : A -> M B) (b : B) :
  returns (bind m f) b <-> exists a, returns m a /\ returns (f a) b.
Proof.
  split.
  - intros [l Hl]. apply bind_Done in Hl as (a & l1 & l2 & Hm & Hf & _).
    exists a. split; eexists; eassumption.
  - intros (a & [l1 Hm] & [l2 Hf]). exists (l1 ++ l2)%list.
    unfold bind. now rewrite Hm, Hf.
Qed.

Lemma returns_ret {A} (a b : A) : returns (ret a) b <-> a = b.
Proof.
  unfold returns, ret. split.
  - intros [l [= -> _]]. reflexivity.
  - intros ->. eauto.
Qed.

Lemma returns_inj {A} (m : M A) (a b : A) : returns m a -> returns m b -> a = b.
Proof. intros [l ->] [l' [= -> _]]. reflexivity. Qed.

Lemma returns_value {A} (m : M A) (a : A) : returns m a <-> value m = Some a.
Proof.
  unfold returns, value. destruct m; split;
    first [ intros [l [= -> _]]; reflexivity
          | intros [= ->]; eauto
          | intros [l [=]]
          | discriminate ].
Qed.

(** A step of a run whose result is known: [m] returns [x], and the run goes
    on with [x]. *)
Ltac returning x :=
  exists x; split; [assumption|]; try apply returns_bind.

(** ** Paths *)

Lemma string_of_list_ascii_nonempty (c : ascii) (l : list ascii) :
  string_of_list_ascii (c :: l) <> EmptyString.
Proof. discriminate. Qed.

(** [filepath.Base] never returns the empty string, so that indexing its
    first byte is in range. *)
Lemma Base_nonempty (path : string) : filepath.Base path <> EmptyString.
Proof.
  unfold filepath.Base. destruct path as [|c path]; [discriminate|].
  destruct (filepath.last_elem _ _); discriminate.
Qed.

Lemma last_elem_plain (r acc : list ascii) :
  forallb (fun c => negb (filepath.IsPathSeparator c)) r = true ->
  filepath.last_elem r acc = rev r ++ acc.
Proof.
  revert acc. induction r as [|c r IH]; intros acc H; [reflexivity|].
  cbn [forallb] in H. apply andb_prop in H as [Hc Hr].
  cbn [filepath.last_elem rev]. apply negb_true_iff in Hc. rewrite Hc.
  now rewrite IH, <- app_assoc.
Qed.

Lemma strip_seps_plain (r : list ascii) :
  forallb (fun c => negb (filepath.IsPathSeparator c)) r = true ->
  filepath.strip_seps r = r.
Proof.
  destruct r as [|c r]; [reflexivity|]. cbn [forallb filepath.strip_seps].
  intros H. apply andb_prop in H as [Hc _]. apply negb_true_iff in Hc.
  now rewrite Hc.
Qed.

(** The name [os.Stat] reports, the last element of the path it was given,
    is not empty and holds no separator: it is its own base name. *)
Lemma Base_plain (name : string) :
  name <> EmptyString ->
  forallb (fun c => negb (filepath.IsPathSeparator c))
    (list_ascii_of_string name) = true ->
  filepath.Base name = name.
Proof.
  intros Hne Hplain. unfold filepath.Base.
  destruct name as [|c name]; [contradiction|].
  assert (Hrev : forallb (fun c => negb (filepath.IsPathSeparator c))
                   (rev (list_ascii_of_string (String c name))) = true).
  { apply forallb_forall. intros x Hx. apply in_rev in Hx.
    revert x Hx. now apply forallb_forall. }
  rewrite (strip_seps_plain _ Hrev), (last_elem_plain _ [] Hrev).
  rewrite rev_involutive, app_nil_r.
  cbn [list_ascii_of_string].
  change (string_of_list_ascii (list_ascii_of_string (String c name))
          = String c name).
  apply string_of_list_ascii_of_string.
Qed.

(** [strings.Index(badLeadingChar, string(b)) > -1] says that [b] is one of
    the three bytes of [badLeadingChar]. *)
Lemma bad_leading_byte (b : ascii) :
  (Strings.Index badLeadingChar (Strings.of_byte b) >? -1)
  = existsb (Ascii.eqb b) ["~"%char; "."%char; "#"%char].
Proof.
  destruct b as [[] [] [] [] [] [] [] []]; vm_compute; reflexivity.
Qed.

Lemma HasPrefix_dot (s : string) :
  Strings.HasPrefix s "." = first_byte_in s ["."%char].
Proof.
  unfold Strings.HasPrefix, first_byte_in. destruct s as [|c s]; [reflexivity|].
  cbn [String.prefix existsb].
  destruct (ascii_dec "."%char c) as [<-|Hne].
  - now destruct s.
  - assert (Ascii.eqb c "."%char = false) as ->; [|reflexivity].
    apply Ascii.eqb_neq. congruence.
Qed.

(** ** The desirability filters *)

Section Filters.

Variable fs : FileSystem.

(** When [os.Stat] succeeds, [isDesirableFile] returns what the specification
    says, and logs one line exactly when it rejects the candidate. *)
Lemma isDesirableFile_stat_ok (n : FilePath) (s : os.FileInfo) :
  lookup_path fs n = inl s ->
  exists log,
    isDesirableFile fs n = Done (wanted_file s) log
    /\ length log = (if wanted_file s then 0 else 1)%nat.
Proof.
  intros Hs. unfold isDesirableFile, os_Stat, wanted_file. rewrite Hs.
  cbv beta iota.
  change (call (Some s) os.IsDir) with (Done (os.IsDir s) []).
  unfold bind at 1. destruct (os.IsDir s).
  { cbn. eauto. }
  change (call (Some s) os.Mode) with (Done (os.Mode s) []).
  unfold bind at 1. destruct (os.FileMode_IsRegular (os.Mode s)).
  2: { cbn. eauto. }
  cbv beta iota. cbn [negb andb].
  change (call (Some s) os.Name) with (Done (os.Name s) []).
  unfold bind at 1.
  destruct (String.eqb (filepath.Ext (os.Name s)) ".md").
  2: { cbn. eauto. }
  cbn [negb andb]. unfold bind at 1. cbv beta iota.
  pose proof (Base_nonempty (os.Name s)) as Hbase.
  destruct (filepath.Base (os.Name s)) as [|b base]; [contradiction|].
  cbn [byte0 first_byte_in]. unfold ret at 1. unfold bind at 1.
  rewrite bad_leading_byte.
  destruct (existsb (Ascii.eqb b) _); cbn; eauto.
Qed.

(** When [os.Stat] fails, the line that reports it calls [s.Name()] on the
    nil [FileInfo]: the filter panics, and returns nothing. *)
Lemma isDesirableFile_stat_error (n : FilePath) (err : error) :
  lookup_path fs n = inr err -> isDesirableFile fs n = Panicked.
Proof.
  intros Hs. unfold isDesirableFile, os_Stat. rewrite Hs. reflexivity.
Qed.

Lemma isDesirableDir_stat_ok (n : FilePath) (s : os.FileInfo) :
  lookup_path fs n = inl s ->
  exists log,
    isDesirableDir fs n = Done (wanted_dir s) log
    /\ length log = (if wanted_dir s then 0 else 1)%nat.
Proof.
  intros Hs. unfold isDesirableDir, os_Stat, wanted_dir. rewrite Hs.
  cbv beta iota.
  change (call (Some s) os.IsDir) with (Done (os.IsDir s) []).
  unfold bind at 1. destruct (os.IsDir s).
  2: { cbn. eauto. }
  cbn [negb andb].
  change (call (Some s) os.Name) with (Done (os.Name s) []).
  unfold bind at 1. cbv beta iota.
  destruct (String.eqb (os.Name s) "." || String.eqb (os.Name s) "./"
            || String.eqb (os.Name s) "..").
  { cbn. eauto. }
  cbn [orb]. unfold bind at 1. rewrite HasPrefix_dot.
  destruct (first_byte_in _ _); cbn; eauto.
Qed.

Lemma isDesirableDir_stat_error (n : FilePath) (err : error) :
  lookup_path fs n = inr err -> isDesirableDir fs n = Panicked.
Proof.
  intros Hs. unfold isDesirableDir, os_Stat. rewrite Hs. reflexivity.
Qed.



(** [isDesirableFile] returns true exactly for the paths [os.Stat] finds to be
    wanted files, and [isDesirableDir] for those it finds to be wanted
    directories. *)
Lemma isDesirableFile_true_iff (n : FilePath) :
  returns (isDesirableFile fs n) true
  <-> exists s, lookup_path fs n = inl s /\ wanted_file s = true.
Proof.
  split.
  - intros [log H]. destruct (lookup_path fs n) as [s|err] eqn:Hs.
    + exists s. split; [reflexivity|].
      destruct (isDesirableFile_stat_ok n s Hs) as (log' & H' & _). congruence.
    + rewrite (isDesirableFile_stat_error n err Hs) in H. discriminate.
  - intros (s & Hs & Hw).
    destruct (isDesirableFile_stat_ok n s Hs) as (log & H & _).
    exists log. now rewrite H, Hw.
Qed.

Lemma isDesirableDir_true_iff (n : FilePath) :
  returns (isDesirableDir fs n) true
  <-> exists s, lookup_path fs n = inl s /\ wanted_dir s = true.
Proof.
  split.
  - intros [log H]. destruct (lookup_path fs n) as [s|err] eqn:Hs.
    + exists s. split; [reflexivity|].
      destruct (isDesirableDir_stat_ok n s Hs) as (log' & H' & _). congruence.
    + rewrite (isDesirableDir_stat_error n err Hs) in H. discriminate.
  - intros (s & Hs & Hw).
    destruct (isDesirableDir_stat_ok n s Hs) as (log & H & _).
    exists log. now rewrite H, Hw.
Qed.

End Filters.

(** ** The scanner *)

Section Scanner.

Variable fs : FileSystem.

Lemma scanFile_Lesson (n : FilePath) (l : Lesson) :
  scanFile fs n = inl l
  <-> exists content, Read fs n = inl content /\ l = mkLesson n content.
Proof.
  unfold scanFile. destruct (Read fs n) as [content|err]; split.
  - intros [= <-]. eauto.
  - intros (c & [= <-] & ->). reflexivity.
  - discriminate.
  - intros (c & [=] & _).
Qed.

Lemma scanFile_error (n : FilePath) (err : error) :
  scanFile fs n = inr err <-> Read fs n = inr err.
Proof.
  unfold scanFile. destruct (Read fs n) as [content|err']; split; congruence.
Qed.

(** One round of the loops ends normally exactly in the ways [gathers]
    lists. *)
Lemma returns_gather {R} (scan : FilePath -> M (option Course * option error))
    (fail : error -> R) (p : FilePath) (items : list Tutorial) (r : round R) :
  returns (gather fs scan fail p items) r <-> gathers fs scan fail p items r.
Proof.
  unfold gather. rewrite returns_bind. split.
  - intros ([] & Hfile & H).
    + unfold scanFile in H. destruct (Read fs p) as [content|err] eqn:Hread;
        apply returns_ret in H; subst r.
      * now apply gathers_Lesson.
      * now apply gathers_read_error.
    + apply returns_bind in H as ([] & Hdir & H).
      * apply returns_bind in H as ([[c|] [err|]] & Hscan & H);
          apply returns_ret in H; subst r.
        -- eapply gathers_scan_error; eassumption.
        -- now apply gathers_Course.
        -- eapply gathers_scan_error; eassumption.
        -- now apply gathers_pruned.
      * apply returns_ret in H; subst r. now apply gathers_nothing.
  - intros H. destruct H as [content Hf Hr|err Hf Hr|c Hf Hd Hs|Hf Hd Hs
                             |c err Hf Hd Hs|Hf Hd].
    + returning true. unfold scanFile. rewrite Hr. now apply returns_ret.
    + returning true. unfold scanFile. rewrite Hr. now apply returns_ret.
    + returning false. returning true. returning (Some c, @None error).
      now apply returns_ret.
    + returning false. returning true. returning (@None Course, @None error).
      now apply returns_ret.
    + returning false. returning true. returning (c, Some err).
      destruct c; now apply returns_ret.
    + returning false. returning false. now apply returns_ret.
Qed.

(** A round depends on the scanner only through the results it returns. *)
Lemma gathers_mono {R}
    (scan scan' : FilePath -> M (option Course * option error))
    (fail : error -> R) (p : FilePath) (items : list Tutorial) (r : round R) :
  (forall q x, returns (scan q) x -> returns (scan' q) x) ->
  gathers fs scan fail p items r -> gathers fs scan' fail p items r.
Proof.
  intros Hmono H. destruct H; eauto using @gathers.
Qed.

(** A round that goes on has added at most one node, at the end. *)
Lemma gathers_Continue {R} (scan : FilePath -> M (option Course * option error))
    (fail : error -> R) (p : FilePath) (items items' : list Tutorial) :
  gathers fs scan fail p items (Continue items') ->
  items' = items
  \/ (exists content, items' = items ++ [ptrLesson p content])
  \/ (exists c,
        returns (scan p) (Some c, None) /\ items' = items ++ [of_Course c]).
Proof.
  inversion 1; subst; eauto.
Qed.

Lemma returns_range_files_nil
    (scan : FilePath -> M (option Course * option error)) (d : FilePath)
    (items : list Tutorial) (r : round (option Course * option error)) :
  returns (range_files fs scan d [] items) r <-> r = Continue items.
Proof.
  cbn [range_files]. rewrite returns_ret. split; congruence.
Qed.

Lemma returns_range_files_cons
    (scan : FilePath -> M (option Course * option error)) (d : FilePath)
    (f : string) (rest : list string) (items : list Tutorial)
    (r : round (option Course * option error)) :
  returns (range_files fs scan d (f :: rest) items) r
  <-> exists x,
        gathers fs scan (fun err => (None, Some err)) (Join fs d f) items x
        /\ match x with
           | Continue items' => returns (range_files fs scan d rest items') r
           | Return y => r = Return y
           end.
Proof.
  cbn [range_files]. rewrite returns_bind.
  split; intros (x & Hx & H); exists x.
  - apply returns_gather in Hx. split; [assumption|].
    destruct x; [assumption|]. now apply returns_ret in H.
  - apply returns_gather in Hx. split; [assumption|].
    destruct x; [assumption|]. now apply returns_ret.
Qed.

Lemma range_files_mono
    (scan scan' : FilePath -> M (option Course * option error)) (d : FilePath)
    (files : list string) :
  (forall q x, returns (scan q) x -> returns (scan' q) x) ->
  forall items r,
    returns (range_files fs scan d files items) r ->
    returns (range_files fs scan' d files items) r.
Proof.
  intros Hmono. induction files as [|f rest IH]; intros items r.
  - now rewrite !returns_range_files_nil.
  - rewrite !returns_range_files_cons. intros (x & Hx & H). exists x.
    split; [now apply gathers_mono with scan|].
    destruct x; [now apply IH|assumption].
Qed.

(** The loop of [scanDir] leaves the function only with an error. *)
Lemma range_files_Return
    (scan : FilePath -> M (option Course * option error)) (d : FilePath)
    (files : list string) :
  forall items y,
    returns (range_files fs scan d files items) (Return y) ->
    exists err, y = (None, Some err).
Proof.
  induction files as [|f rest IH]; intros items y.
  - rewrite returns_range_files_nil. discriminate.
  - rewrite returns_range_files_cons. intros ([items'|y'] & Hx & H).
    + now apply IH with items'.
    + injection H as ->. inversion Hx; eauto.
Qed.

(** One call of [scanDir], in terms of the calls one level down. *)
Lemma returns_scanDir_S (fuel : nat) (d : FilePath)
    (r : option Course * option error) :
  returns (scanDir fs (S fuel) d) r
  <-> (exists err, ReadDir fs d = inr err /\ r = (None, Some err))
      \/ (exists files x,
            ReadDir fs d = inl files
            /\ returns (range_files fs (scanDir fs fuel) d files []) x
            /\ match x with
               | Return y => r = y
               | Continue items => r = (pruned_Course d items, None)
               end).
Proof.
  cbn [scanDir]. destruct (ReadDir fs d) as [files|err].
  - rewrite returns_bind. split.
    + intros (x & Hx & H). right. exists files, x.
      split; [reflexivity|]. split; [assumption|].
      destruct x as [[|t items]|y]; cbn in H; apply returns_ret in H;
        now subst r.
    + intros [(err & [=] & _)|(files' & x & [= <-] & Hx & H)].
      exists x. split; [assumption|].
      destruct x as [[|t items]|y]; cbn; apply returns_ret; now subst r.
  - rewrite returns_ret. split.
    + intros <-. left. eauto.
    + intros [(err' & [= <-] & ->)|(files & x & [=] & _)]. reflexivity.
Qed.

Lemma scanDir_O (d : FilePath) (r : option Course * option error) :
  ~ returns (scanDir fs 0 d) r.
Proof. intros [l H]. discriminate. Qed.

(** More fuel does not change what [scanDir] returns. *)
Lemma scanDir_mono_S (fuel : nat) :
  forall d r,
    returns (scanDir fs fuel d) r -> returns (scanDir fs (S fuel) d) r.
Proof.
  induction fuel as [|fuel IH]; intros d r H.
  - now apply scanDir_O in H.
  - apply returns_scanDir_S in H. apply returns_scanDir_S.
    destruct H as [H|(files & x & Hdir & Hx & H)]; [now left|right].
    exists files, x. split; [assumption|]. split; [|assumption].
    now apply range_files_mono with (scanDir fs fuel).
Qed.

Lemma scanDir_mono (fuel fuel' : nat) (d : FilePath)
    (r : option Course * option error) :
  (fuel <= fuel')%nat ->
  returns (scanDir fs fuel d) r -> returns (scanDir fs fuel' d) r.
Proof.
  induction 1 as [|fuel' _ IH]; [trivial|].
  intros H. now apply scanDir_mono_S, IH.
Qed.

(** [scanDir] returns one result at most, whatever the fuel. *)
Lemma scanDir_returns_inj (d : FilePath) (r r' : option Course * option error) :
  scanDir_returns fs d r -> scanDir_returns fs d r' -> r = r'.
Proof.
  intros [n Hn] [m Hm].
  apply (scanDir_mono n (Nat.max n m)) in Hn; [|lia].
  apply (scanDir_mono m (Nat.max n m)) in Hm; [|lia].
  eapply returns_inj; eassumption.
Qed.




End Scanner.

(** ** What scanDir builds *)

Section ScanDir.

Variable fs : FileSystem.

(** A round of [scanDir]'s loop that goes on has appended what the entry
    contributes. *)
Lemma gathers_contributes (fuel : nat) (d : FilePath) (f : string)
    (items items' : list Tutorial) :
  gathers fs (scanDir fs fuel) (fun err => (@None Course, Some err))
    (Join fs d f) items (Continue items') ->
  exists c, contributes fs d f c /\ items' = items ++ c.
Proof.
  inversion 1 as [content Hf Hr|?|c Hf Hd Hs|Hf Hd Hs|?|Hf Hd]; subst.
  - exists [ptrLesson (Join fs d f) content].
    split; [now apply contributes_Lesson|reflexivity].
  - exists [of_Course c].
    split; [|reflexivity].
    apply contributes_Course; try assumption. now exists fuel.
  - exists []. rewrite app_nil_r.
    split; [|reflexivity].
    apply contributes_pruned; try assumption. now exists fuel.
  - exists []. rewrite app_nil_r.
    split; [now apply contributes_nothing|reflexivity].
Qed.

(** Conversely, what an entry contributes is appended by the round, once the
    fuel covers the directories below the entry. *)
Lemma contributes_gathers (d : FilePath) (f : string) (c : list Tutorial) :
  contributes fs d f c ->
  exists fuel, forall fuel', (fuel <= fuel')%nat -> forall items,
    gathers fs (scanDir fs fuel') (fun err => (@None Course, Some err))
      (Join fs d f) items (Continue (items ++ c)).
Proof.
  intros [content Hf Hr|c' Hf Hd [n Hs]|Hf Hd [n Hs]|Hf Hd].
  - exists O. intros m _ items. now apply gathers_Lesson.
  - exists n. intros m Hm items. apply gathers_Course; try assumption.
    now apply scanDir_mono with n.
  - exists n. intros m Hm items. rewrite app_nil_r.
    apply gathers_pruned; try assumption. now apply scanDir_mono with n.
  - exists O. intros m _ items. rewrite app_nil_r. now apply gathers_nothing.
Qed.

Lemma range_files_contributes (fuel : nat) (d : FilePath)
    (files : list string) :
  forall items items',
    returns (range_files fs (scanDir fs fuel) d files items)
      (Continue items') ->
    exists cs,
      Forall2 (contributes fs d) files cs /\ items' = items ++ concat cs.
Proof.
  induction files as [|f rest IH]; intros items items'.
  - rewrite returns_range_files_nil. intros [= ->].
    exists []. split; [constructor|]. cbn. now rewrite app_nil_r.
  - rewrite returns_range_files_cons. intros ([items1|y] & Hx & H);
      [|discriminate].
    apply gathers_contributes in Hx as (c & Hc & ->).
    apply IH in H as (cs & Hcs & ->).
    exists (c :: cs). split; [now constructor|]. cbn. now rewrite app_assoc.
Qed.

Lemma contributes_range_files (d : FilePath) (files : list string)
    (cs : list (list Tutorial)) :
  Forall2 (contributes fs d) files cs ->
  exists fuel, forall fuel', (fuel <= fuel')%nat -> forall items,
    returns (range_files fs (scanDir fs fuel') d files items)
      (Continue (items ++ concat cs)).
Proof.
  induction 1 as [|f c rest cs Hc _ (n2 & IH)].
  - exists O. intros m _ items. apply returns_range_files_nil.
    cbn. now rewrite app_nil_r.
  - apply contributes_gathers in Hc as (n1 & Hc).
    exists (Nat.max n1 n2). intros m Hm items.
    apply returns_range_files_cons. exists (Continue (items ++ c)).
    split; [apply Hc; lia|]. cbn [concat]. rewrite app_assoc. apply IH. lia.
Qed.

(** When every entry contributes as the specification says, [scanDir]
    returns the Course over the contributions, in the order of the listing,
    or no node when there are none. *)
Lemma scanDir_of_contributions (d : FilePath) (files : list string)
    (cs : list (list Tutorial)) :
  ReadDir fs d = inl files ->
  Forall2 (contributes fs d) files cs ->
  scanDir_returns fs d (pruned_Course d (concat cs), None).
Proof.
  intros Hdir Hcs.
  apply contributes_range_files in Hcs as (fuel & Hcs).
  exists (S fuel). apply returns_scanDir_S. right.
  exists files, (Continue (concat cs)).
  split; [assumption|]. split; [|reflexivity].
  apply (Hcs fuel (Nat.le_refl fuel) []).
Qed.

(** C3. For every directory, [scanDir] handles the entries in the order they
    are listed: a desirable file is read into a Lesson and appended;
    otherwise a desirable directory is scanned in turn, and appended only if
    that scan yields a node; an entry both filters reject is passed over. It
    returns no node and no error when the list it has built is empty, and
    otherwise the Course of the directory whose children are the list, in
    that order. The statement covers both directions: this is what [scanDir]
    returns when it returns no error, and whenever every entry contributes
    as described (so that no read fails) [scanDir] does return it. *)
Theorem scanDir_builds_the_listed_entries_in_order (d : FilePath)
    (c : option Course) :
  scanDir_returns fs d (c, None)
  <-> exists files cs,
        ReadDir fs d = inl files
        /\ Forall2 (contributes fs d) files cs
        /\ c = pruned_Course d (concat cs).
Proof.
  split.
  - intros [[|fuel] H]; [now apply scanDir_O in H|].
    apply returns_scanDir_S in H
      as [(err & _ & [=])|(files & [items|y] & Hdir & Hx & H)].
    + injection H as ->.
      apply range_files_contributes in Hx as (cs & Hcs & ->).
      exists files, cs. auto.
    + subst y. apply range_files_Return in Hx as (err & [=]).
  - intros (files & cs & Hdir & Hcs & ->).
    now apply scanDir_of_contributions with files.
Qed.

End ScanDir.

(** ** Trees *)

(** Induction on a tree, with the property known of all the children. *)
Lemma Tutorial_induction (P : Tutorial -> Prop) :
  (forall filepath content, P (ptrLesson filepath content)) ->
  (forall filepath children,
     Forall P children -> P (ptrCourse filepath children)) ->
  (forall filepath children,
     Forall P children -> P (ptrTopCourse filepath children)) ->
  forall t, P t.
Proof.
  intros HL HC HT. fix IH 1. intros [filepath content|filepath ch|filepath ch].
  - apply HL.
  - apply HC. induction ch as [|x ch IHch]; constructor; [apply IH|exact IHch].
  - apply HT. induction ch as [|x ch IHch]; constructor; [apply IH|exact IHch].
Qed.

Lemma filter_flat_map_nil {A B} (f : B -> bool) (g : A -> list B) (l : list A) :
  Forall (fun x => List.filter f (g x) = []) l ->
  List.filter f (flat_map g l) = [].
Proof.
  induction 1 as [|x l Hx _ IH]; cbn; [reflexivity|].
  now rewrite List.filter_app, Hx, IH.
Qed.

Lemma scanned_Lesson (filepath : FilePath) (content : string) :
  scanned (ptrLesson filepath content).
Proof.
  split; [|reflexivity]. intros x [<-|[]]. reflexivity.
Qed.

Lemma scanned_Course (filepath : FilePath) (children : list Tutorial) :
  children <> [] -> Forall scanned children ->
  scanned (ptrCourse filepath children).
Proof.
  intros Hne Hall. split.
  - intros x [<-|Hx]; [exact Hne|].
    apply in_flat_map in Hx as (y & Hy & Hx).
    rewrite List.Forall_forall in Hall. now apply (Hall y Hy).
  - unfold count_TopCourse. cbn [preorder List.filter is_TopCourse].
    rewrite filter_flat_map_nil; [reflexivity|].
    revert Hall. apply List.Forall_impl. intros y [_ Hy].
    unfold count_TopCourse in Hy. now apply length_zero_iff_nil.
Qed.

(** A TopCourse over scanned nodes is well shaped and is the one TopCourse of
    its tree. *)
Lemma TopCourse_of_scanned (filepath : FilePath) (children : list Tutorial) :
  Forall scanned children ->
  well_shaped (ptrTopCourse filepath children)
  /\ count_TopCourse (ptrTopCourse filepath children) = 1%nat.
Proof.
  intros Hall. split.
  - intros x [<-|Hx]; [exact I|].
    apply in_flat_map in Hx as (y & Hy & Hx).
    rewrite List.Forall_forall in Hall. now apply (Hall y Hy).
  - unfold count_TopCourse. cbn [preorder List.filter is_TopCourse].
    rewrite filter_flat_map_nil; [reflexivity|].
    revert Hall. apply List.Forall_impl. intros y [_ Hy].
    unfold count_TopCourse in Hy. now apply length_zero_iff_nil.
Qed.

(** ** What the scanner and the loaders return *)

Section Loaders.

Variable fs : FileSystem.

Lemma gathers_scanned {R} (scan : FilePath -> M (option Course * option error))
    (fail : error -> R) (p : FilePath) (items items' : list Tutorial) :
  (forall q c, returns (scan q) (Some c, None) -> scanned (of_Course c)) ->
  Forall scanned items ->
  gathers fs scan fail p items (Continue items') ->
  Forall scanned items'.
Proof.
  intros Hscan Hitems H.
  apply gathers_Continue in H as [->|[(content & ->)|(c & Hc & ->)]].
  - assumption.
  - apply Forall_app. split; [assumption|].
    constructor; [apply scanned_Lesson|constructor].
  - apply Forall_app. split; [assumption|].
    constructor; [now apply Hscan with p|constructor].
Qed.

Lemma range_files_scanned
    (scan : FilePath -> M (option Course * option error)) (d : FilePath)
    (files : list string) :
  (forall q c, returns (scan q) (Some c, None) -> scanned (of_Course c)) ->
  forall items items',
    Forall scanned items ->
    returns (range_files fs scan d files items) (Continue items') ->
    Forall scanned items'.
Proof.
  intros Hscan. induction files as [|f rest IH]; intros items items' Hitems.
  - rewrite returns_range_files_nil. now intros [= ->].
  - rewrite returns_range_files_cons. intros ([items1|y] & Hx & H);
      [|discriminate].
    apply IH with items1; [|assumption].
    now apply gathers_scanned with scan (fun err => (@None Course, Some err))
      (Join fs d f) items.
Qed.

(** A Course returned by [scanDir] is the Course of the directory scanned, has
    at least one child, and holds scanned nodes only. *)
Lemma scanDir_Course (fuel : nat) :
  forall d c,
    returns (scanDir fs fuel d) (Some c, None) ->
    Course_filepath c = d
    /\ Course_children c <> []
    /\ Forall scanned (Course_children c).
Proof.
  induction fuel as [|fuel IH]; intros d c H.
  - now apply scanDir_O in H.
  - apply returns_scanDir_S in H
      as [(err & _ & [=])|(files & [items|y] & Hdir & Hx & H)].
    + destruct items as [|t items]; [discriminate|].
      injection H as ->. cbn. split; [reflexivity|]. split; [discriminate|].
      apply (range_files_scanned (scanDir fs fuel) d files) with (items := []);
        [|constructor|assumption].
      intros q c Hc. destruct (IH q c Hc) as (_ & Hne & Hall).
      now apply scanned_Course.
    + subst y. apply range_files_Return in Hx as (err & [=]).
Qed.

Lemma scanDir_scanned (fuel : nat) (d : FilePath) (c : Course) :
  returns (scanDir fs fuel d) (Some c, None) -> scanned (of_Course c).
Proof.
  intros H. destruct (scanDir_Course fuel d c H) as (_ & Hne & Hall).
  now apply scanned_Course.
Qed.

(** [scanDir] never returns a Course together with an error. *)
Lemma scanDir_error (fuel : nat) (d : FilePath) (c : option Course)
    (err : error) :
  returns (scanDir fs fuel d) (c, Some err) -> c = None.
Proof.
  destruct fuel as [|fuel]; intros H; [now apply scanDir_O in H|].
  apply returns_scanDir_S in H
    as [(err' & _ & [= -> _])|(files & [items|y] & Hdir & Hx & H)].
  - reflexivity.
  - discriminate.
  - subst y. now apply range_files_Return in Hx as (err' & [= -> _]).
Qed.

(** *** LoadOne *)

Lemma returns_LoadOne (fuel : nat) (root : FilePath)
    (r : Tutorial_value * option error) :
  returns (LoadOne fs fuel root) r <-> LoadOne_ends fs fuel root r.
Proof.
  unfold LoadOne. cbv zeta. rewrite returns_bind. split.
  - intros ([] & Hfile & H).
    + unfold scanFile in H. destruct (Read fs root) as [content|err] eqn:Hread;
        apply returns_ret in H; subst r.
      * now apply one_Lesson.
      * now apply one_read_error.
    + apply returns_bind in H as ([] & Hdir & H).
      * apply returns_bind in H as ([[c|] [err|]] & Hscan & H);
          apply returns_ret in H; subst r.
        -- eapply one_scan_error; eassumption.
        -- now apply one_TopCourse.
        -- eapply one_scan_error; eassumption.
        -- now apply one_pruned.
      * apply returns_ret in H; subst r. now apply one_undesirable.
  - intros H. destruct H as [content Hf Hr|err Hf Hr|c Hf Hd Hs|c err Hf Hd Hs
                             |Hf Hd Hs|Hf Hd].
    + returning true. unfold scanFile. rewrite Hr. now apply returns_ret.
    + returning true. unfold scanFile. rewrite Hr. now apply returns_ret.
    + returning false. returning true. returning (Some c, @None error).
      now apply returns_ret.
    + returning false. returning true. returning (c, Some err).
      destruct c; now apply returns_ret.
    + returning false. returning true. returning (@None Course, @None error).
      now apply returns_ret.
    + returning false. returning false. now apply returns_ret.
Qed.

(** *** LoadMany *)

Lemma returns_range_fileNames_nil (fuel : nat) (items : list Tutorial)
    (r : round (Tutorial_value * option error)) :
  returns (range_fileNames fs fuel [] items) r <-> r = Continue items.
Proof.
  cbn [range_fileNames]. rewrite returns_ret. split; congruence.
Qed.

Lemma returns_range_fileNames_cons (fuel : nat) (f : FilePath)
    (rest : list FilePath) (items : list Tutorial)
    (r : round (Tutorial_value * option error)) :
  returns (range_fileNames fs fuel (f :: rest) items) r
  <-> exists x,
        gathers fs (scanDir fs fuel) (fun err => (nil_Tutorial, Some err)) f
          items x
        /\ match x with
           | Continue items' => returns (range_fileNames fs fuel rest items') r
           | Return y => r = Return y
           end.
Proof.
  cbn [range_fileNames]. rewrite returns_bind.
  split; intros (x & Hx & H); exists x.
  - apply returns_gather in Hx. split; [assumption|].
    destruct x; [assumption|]. now apply returns_ret in H.
  - apply returns_gather in Hx. split; [assumption|].
    destruct x; [assumption|]. now apply returns_ret.
Qed.

Lemma range_fileNames_scanned (fuel : nat) (fileNames : list FilePath) :
  forall items items',
    Forall scanned items ->
    returns (range_fileNames fs fuel fileNames items) (Continue items') ->
    Forall scanned items'.
Proof.
  induction fileNames as [|f rest IH]; intros items items' Hitems.
  - rewrite returns_range_fileNames_nil. now intros [= ->].
  - rewrite returns_range_fileNames_cons. intros ([items1|y] & Hx & H);
      [|discriminate].
    apply IH with items1; [|assumption].
    apply gathers_scanned with (scanDir fs fuel)
      (fun err => (nil_Tutorial, Some err)) f items; try assumption.
    intros q c. apply scanDir_scanned.
Qed.

(** The loop of [LoadMany] leaves the function only with an error and the nil
    Tutorial. *)
Lemma range_fileNames_Return (fuel : nat) (fileNames : list FilePath) :
  forall items y,
    returns (range_fileNames fs fuel fileNames items) (Return y) ->
    exists err, y = (nil_Tutorial, Some err).
Proof.
  induction fileNames as [|f rest IH]; intros items y.
  - rewrite returns_range_fileNames_nil. discriminate.
  - rewrite returns_range_fileNames_cons. intros ([items'|y'] & Hx & H).
    + now apply IH with items'.
    + injection H as ->. inversion Hx; eauto.
Qed.

Lemma returns_LoadMany_several (fuel : nat) (f g : FilePath)
    (rest : list FilePath) (r : Tutorial_value * option error) :
  returns (LoadMany fs fuel (f :: g :: rest)) r
  <-> exists x,
        returns (range_fileNames fs fuel (f :: g :: rest) []) x
        /\ match x with
           | Return y => r = y
           | Continue items => r = TopCourse_of_many items
           end.
Proof.
  cbn [LoadMany]. rewrite returns_bind.
  split; intros (x & Hx & H); exists x; (split; [assumption|]).
  - destruct x as [[|t items]|y]; cbn in H; apply returns_ret in H;
      now subst r.
  - destruct x as [[|t items]|y]; cbn; apply returns_ret; now subst r.
Qed.




Lemma LoadMany_one (fuel : nat) (root : FilePath) :
  LoadMany fs fuel [root] = LoadOne fs fuel root.
Proof. reflexivity. Qed.

Lemma LoadMany_none (fuel : nat) :
  LoadMany fs fuel [] = Done (nil_Tutorial, Some (errors_New "no files?")) [].
Proof. reflexivity. Qed.

End Loaders.

(** ** The trees the loaders return *)

Section LoadedTrees.

Variable fs : FileSystem.

(** A tree returned by [LoadOne] is the Lesson of a desirable file, or a
    TopCourse over what [scanDir] made of a desirable directory. *)
Lemma LoadOne_tree (fuel : nat) (root : FilePath) (t : Tutorial) :
  returns (LoadOne fs fuel root) (node t, None) ->
  (returns (isDesirableFile fs root) true
   /\ exists content, t = ptrLesson root content)
  \/ (returns (isDesirableFile fs root) false
      /\ exists children,
           t = ptrTopCourse root children
           /\ children <> [] /\ Forall scanned children).
Proof.
  intros H. apply returns_LoadOne in H.
  inversion H as [content Hf Hr|?|c Hf Hd Hs|?|?|?]; subst.
  - left. eauto.
  - right. split; [assumption|]. exists (Course_children c).
    destruct (scanDir_Course fs fuel root c Hs) as (_ & Hne & Hall). auto.
Qed.

(** A tree returned by [LoadMany] for two paths or more is a TopCourse with an
    empty path over nodes the scanner built. *)
Lemma LoadMany_tree (fuel : nat) (f g : FilePath) (rest : list FilePath)
    (t : Tutorial) :
  returns (LoadMany fs fuel (f :: g :: rest)) (node t, None) ->
  exists children,
    t = ptrTopCourse EmptyString children
    /\ children <> [] /\ Forall scanned children.
Proof.
  intros H. apply returns_LoadMany_several in H as ([items|y] & Hx & H).
  - destruct items as [|x items]; [discriminate|].
    injection H as ->. exists (x :: items).
    split; [reflexivity|]. split; [discriminate|].
    now apply (range_fileNames_scanned fs fuel (f :: g :: rest) []).
  - subst y. apply range_fileNames_Return in Hx as (err & [=]).
Qed.

(** Every tree the loaders return is well shaped. *)
Lemma LoadOne_well_shaped (fuel : nat) (root : FilePath) (t : Tutorial) :
  returns (LoadOne fs fuel root) (node t, None) -> well_shaped t.
Proof.
  intros H. apply LoadOne_tree in H
    as [(_ & content & ->)|(_ & children & -> & _ & Hall)].
  - apply scanned_Lesson.
  - now apply TopCourse_of_scanned.
Qed.

Lemma LoadMany_well_shaped (fuel : nat) (fileNames : list FilePath)
    (t : Tutorial) :
  returns (LoadMany fs fuel fileNames) (node t, None) -> well_shaped t.
Proof.
  destruct fileNames as [|f [|g rest]]; intros H.
  - destruct H as [l [=]].
  - rewrite LoadMany_one in H. now apply LoadOne_well_shaped in H.
  - apply LoadMany_tree in H as (children & -> & _ & Hall).
    now apply TopCourse_of_scanned.
Qed.

(** When a loader returns no error, it returns a node. *)
Lemma LoadOne_no_error (fuel : nat) (root : FilePath) (v : Tutorial_value) :
  returns (LoadOne fs fuel root) (v, None) -> exists t, v = node t.
Proof.
  intros H. apply returns_LoadOne in H. inversion H; subst; eauto.
Qed.

Lemma LoadMany_no_error (fuel : nat) (fileNames : list FilePath)
    (v : Tutorial_value) :
  returns (LoadMany fs fuel fileNames) (v, None) -> exists t, v = node t.
Proof.
  destruct fileNames as [|f [|g rest]]; intros H.
  - destruct H as [l [=]].
  - rewrite LoadMany_one in H. now apply LoadOne_no_error in H.
  - apply returns_LoadMany_several in H as ([items|y] & Hx & H).
    + destruct items as [|x items]; [discriminate|]. injection H as ->. eauto.
    + subst y. apply range_fileNames_Return in Hx as (err & [=]).
Qed.

(** When a loader returns an error, it returns no tree with it. *)
Lemma LoadOne_error_no_tree (fuel : nat) (root : FilePath)
    (v : Tutorial_value) (err : error) :
  returns (LoadOne fs fuel root) (v, Some err) -> tree_of v = None.
Proof.
  intros H. apply returns_LoadOne in H. inversion H; subst; reflexivity.
Qed.

Lemma LoadMany_error_no_tree (fuel : nat) (fileNames : list FilePath)
    (v : Tutorial_value) (err : error) :
  returns (LoadMany fs fuel fileNames) (v, Some err) -> tree_of v = None.
Proof.
  destruct fileNames as [|f [|g rest]]; intros H.
  - destruct H as [l [= <- _]]. reflexivity.
  - rewrite LoadMany_one in H. now apply LoadOne_error_no_tree in H.
  - apply returns_LoadMany_several in H as ([items|y] & Hx & H).
    + destruct items as [|x items]; [|discriminate]. now injection H as ->.
    + subst y. now apply range_fileNames_Return in Hx as (err' & [= -> _]).
Qed.

(** A loader whose candidate cannot be found panics in the filter: it
    returns neither a tree nor an error. *)
Lemma LoadOne_stat_error (fuel : nat) (root : FilePath) (err : error) :
  lookup_path fs root = inr err -> LoadOne fs fuel root = Panicked.
Proof.
  intros H. unfold LoadOne. cbv zeta.
  now rewrite (isDesirableFile_stat_error fs root err H).
Qed.

(** C10. Neither loader returns a nil Tutorial together with a nil error:
    when [LoadOne] or [LoadMany] returns no error, what it returns is a node.
    In particular the outcome of [scanDir] with no node and no error does not
    reach the caller: [LoadOne] turns it into the error "Cannot process". *)
Theorem loaders_return_a_tree_or_an_error :
  (forall root v,
     LoadOne_returns fs root (v, None) -> exists t, v = node t)
  /\ (forall fileNames v,
        LoadMany_returns fs fileNames (v, None) -> exists t, v = node t)
  /\ (forall root,
        returns (isDesirableFile fs root) false ->
        returns (isDesirableDir fs root) true ->
        scanDir_returns fs root (None, None) ->
        LoadOne_returns fs root
          (nil_Tutorial, Some (errors_New ("Cannot process " +:+ root)))).
Proof.
  split; [|split].
  - intros root v [fuel H]. now apply LoadOne_no_error in H.
  - intros fileNames v [fuel H]. now apply LoadMany_no_error in H.
  - intros root Hf Hd [fuel Hs]. exists fuel. apply returns_LoadOne.
    now apply one_pruned.
Qed.

(** C7. In every tree [LoadOne] or [LoadMany] returns, every Course has at
    least one child and every Lesson has none; a Course that [scanDir]
    returns has at least one child, and a directory whose entries contribute
    nothing yields no node instead of an empty Course. *)
Theorem loaded_trees_are_well_shaped :
  (forall root t,
     LoadOne_returns fs root (node t, None) -> well_shaped t)
  /\ (forall fileNames t,
        LoadMany_returns fs fileNames (node t, None) -> well_shaped t)
  /\ (forall d c,
        scanDir_returns fs d (Some c, None) -> Course_children c <> [])
  /\ (forall d files cs,
        ReadDir fs d = inl files ->
        Forall2 (contributes fs d) files cs ->
        concat cs = [] ->
        scanDir_returns fs d (None, None)).
Proof.
  split; [|split; [|split]].
  - intros root t [fuel H]. now apply LoadOne_well_shaped in H.
  - intros fileNames t [fuel H]. now apply LoadMany_well_shaped in H.
  - intros d c [fuel H]. now apply scanDir_Course in H.
  - intros d files cs Hdir Hcs Hnil.
    pose proof (scanDir_of_contributions fs d files cs Hdir Hcs) as H.
    now rewrite Hnil in H.
Qed.

(** C1, as amended. A tree returned by [LoadOne] is the Lesson of the root,
    with no TopCourse in it, when the root is a desirable file; otherwise it
    is a TopCourse whose path is the root, whose name is empty, and which is
    the only TopCourse of the tree. A tree returned by [LoadMany] for two
    paths or more is a TopCourse with the empty path and the empty name, and
    the only TopCourse of the tree. ([LoadMany] on one path is [LoadOne].) *)
Theorem loaded_tree_is_a_Lesson_or_has_one_TopCourse_at_the_root :
  (forall root t,
     LoadOne_returns fs root (node t, None) ->
     (returns (isDesirableFile fs root) true
      /\ (exists content, t = ptrLesson root content)
      /\ count_TopCourse t = 0%nat)
     \/ (returns (isDesirableFile fs root) false
         /\ (exists children, t = ptrTopCourse root children)
         /\ Name fs t = EmptyString
         /\ Path t = root
         /\ count_TopCourse t = 1%nat))
  /\ (forall f g rest t,
        LoadMany_returns fs (f :: g :: rest) (node t, None) ->
        (exists children, t = ptrTopCourse EmptyString children)
        /\ Name fs t = EmptyString
        /\ Path t = EmptyString
        /\ count_TopCourse t = 1%nat)
  /\ (forall fuel root, LoadMany fs fuel [root] = LoadOne fs fuel root).
Proof.
  split; [|split].
  - intros root t [fuel H]. apply LoadOne_tree in H
      as [(Hf & content & ->)|(Hf & children & -> & _ & Hall)].
    + left. eauto.
    + right. split; [assumption|]. split; [eauto|].
      split; [reflexivity|]. split; [reflexivity|].
      now apply TopCourse_of_scanned.
  - intros f g rest t [fuel H].
    apply LoadMany_tree in H as (children & -> & _ & Hall).
    split; [eauto|]. split; [reflexivity|]. split; [reflexivity|].
    now apply TopCourse_of_scanned.
  - reflexivity.
Qed.

End LoadedTrees.

(** ** Integers and strings *)

Lemma wrap_int_id (x : Z) : int_range x -> wrap_int x = x.
Proof.
  unfold int_range, int_min, int_max, wrap_int. intros H.
  rewrite Z.mod_small; lia.
Qed.

Lemma wrap_int_range (x : Z) : int_range (wrap_int x).
Proof.
  unfold int_range, int_min, int_max, wrap_int.
  pose proof (Z.mod_pos_bound (x + 2 ^ 63) (2 ^ 64)). lia.
Qed.

(** Taking back the three columns added restores the indentation, even if
    adding them wrapped around. *)
Lemma wrap_int_restore (i : Z) :
  int_range i -> wrap_int (wrap_int (i + 3) - 3) = i.
Proof.
  unfold int_range, int_min, int_max, wrap_int. intros H.
  replace ((i + 3 + 2 ^ 63) mod 2 ^ 64 - 2 ^ 63 - 3 + 2 ^ 63)
    with ((i + 3 + 2 ^ 63) mod 2 ^ 64 - 3) by lia.
  rewrite Zminus_mod_idemp_l.
  replace (i + 3 + 2 ^ 63 - 3) with (i + 2 ^ 63) by lia.
  rewrite Z.mod_small; lia.
Qed.

Lemma append_assoc (a b c : string) : (a +:+ b) +:+ c = a +:+ (b +:+ c).
Proof.
  induction a as [|x a IH]; [reflexivity|].
  change (String x ((a +:+ b) +:+ c) = String x (a +:+ (b +:+ c))).
  now f_equal.
Qed.

Lemma append_nil_r (a : string) : a +:+ EmptyString = a.
Proof.
  induction a as [|x a IH]; [reflexivity|].
  change (String x (a +:+ EmptyString) = String x a). now f_equal.
Qed.

Lemma join_all_app (l k : list string) :
  join_all (l ++ k) = join_all l +:+ join_all k.
Proof.
  unfold join_all. induction l as [|x l IH]; cbn [app fold_right].
  - reflexivity.
  - now rewrite IH, append_assoc.
Qed.

Lemma blanks_add (n m : nat) :
  fmt.blanks (n + m) = fmt.blanks n +:+ fmt.blanks m.
Proof.
  induction n as [|n IH]; [reflexivity|].
  change (String " "%char (fmt.blanks (n + m))
          = String " "%char (fmt.blanks n +:+ fmt.blanks m)).
  now f_equal.
Qed.

(** A format that starts with blanks: the blanks are copied. *)
Lemma Sprintf_blanks (n : nat) (format : string) (args : list string) :
  fmt.Sprintf (fmt.blanks n +:+ format) args
  = fmt.blanks n +:+ fmt.Sprintf format args.
Proof.
  induction n as [|n IH]; [reflexivity|].
  change (String " "%char (fmt.Sprintf (fmt.blanks n +:+ format) args)
          = String " "%char (fmt.blanks n +:+ fmt.Sprintf format args)).
  now f_equal.
Qed.

(** The indentation is made of blanks, as many as the counter says. *)
Lemma spaces_blanks (i : Z) : spaces i = fmt.blanks (Z.to_nat i).
Proof.
  unfold spaces. destruct (i <? 1) eqn:Hi.
  - apply Z.ltb_lt in Hi. now replace (Z.to_nat i) with O by lia.
  - apply Z.ltb_ge in Hi. unfold fmt.Sprintf_width_s. cbn [String.length].
    replace (Z.to_nat i) with ((Z.to_nat i - 1) + 1)%nat at 2 by lia.
    now rewrite blanks_add.
Qed.

Lemma spaces_three_more (i : Z) :
  0 <= i -> spaces (i + 3) = fmt.blanks 3 +:+ spaces i.
Proof.
  intros Hi. rewrite !spaces_blanks, <- blanks_add. f_equal. lia.
Qed.

(** ** The debug printer *)

Section PrinterFacts.

Variable fs : FileSystem.
Variable SampleString : string -> Z -> string.

Local Abbreviation Accept := (TutorialPrinter_Accept fs SampleString).
Local Abbreviation text := (Printer_text fs SampleString).

(** The line of a Lesson and the line of a Course, with the verbs of the
    format replaced by the operands. *)
Lemma Sprintf_Lesson_line (i : Z) (name sample : string) :
  fmt.Sprintf (spaces i +:+ "%s --- %s..." +:+ fmt.LF) [name; sample]
  = spaces i +:+ name +:+ " --- " +:+ sample +:+ "..." +:+ fmt.LF.
Proof. rewrite spaces_blanks, Sprintf_blanks. reflexivity. Qed.

Lemma Sprintf_Course_line (i : Z) (name : string) :
  fmt.Sprintf (spaces i +:+ "%s" +:+ fmt.LF) [name]
  = spaces i +:+ name +:+ fmt.LF.
Proof. rewrite spaces_blanks, Sprintf_blanks. reflexivity. Qed.

(** Visiting the children one after the other writes their texts one after
    the other, provided each child writes its text and keeps the
    indentation. *)
Lemma Printer_children (children : list Tutorial) (i : Z) :
  Forall (fun x => forall w0,
            Accept x (mkTutorialPrinter i w0)
            = mkTutorialPrinter i (w0 +:+ text x i)) children ->
  forall w0,
    fold_left (fun v x => Accept x v) children (mkTutorialPrinter i w0)
    = mkTutorialPrinter i
        (w0 +:+ join_all (map (fun x => text x i) children)).
Proof.
  induction 1 as [|x children Hx _ IH]; intros w0; cbn [fold_left map].
  - cbn. now rewrite append_nil_r.
  - rewrite Hx, IH. unfold join_all. cbn [fold_right].
    now rewrite append_assoc.
Qed.

(** The printer writes after what is written already, what it writes depends
    on the indentation only, and it leaves the indentation as it found
    it. *)
Lemma Printer_Accept_frame (t : Tutorial) :
  forall i w0,
    int_range i ->
    Accept t (mkTutorialPrinter i w0) = mkTutorialPrinter i (w0 +:+ text t i).
Proof.
  induction t as [filepath content|filepath children IH|filepath children IH]
    using Tutorial_induction; intros i w0 Hi.
  - unfold Printer_text. cbn [TutorialPrinter_Accept].
    unfold TutorialPrinter_VisitLesson.
    cbn [indent w]. unfold fmt.Fprintf. reflexivity.
  - assert (Hch : forall w1,
               fold_left (fun v x => Accept x v) children
                 (mkTutorialPrinter (wrap_int (i + 3)) w1)
               = mkTutorialPrinter (wrap_int (i + 3))
                   (w1 +:+ join_all
                      (map (fun x => text x (wrap_int (i + 3))) children))).
    { apply Printer_children. revert IH. apply List.Forall_impl.
      intros x Hx w1. apply Hx, wrap_int_range. }
    unfold Printer_text. cbn [TutorialPrinter_Accept].
    unfold TutorialPrinter_VisitCourse.
    cbn [indent w Course_children]. rewrite !Hch. cbn [indent w].
    rewrite (wrap_int_restore i Hi). unfold fmt.Fprintf.
    f_equal. cbn [String.append]. now rewrite !append_assoc.
  - assert (Hch : forall w1,
               fold_left (fun v x => Accept x v) children
                 (mkTutorialPrinter i w1)
               = mkTutorialPrinter i
                   (w1 +:+ join_all (map (fun x => text x i) children))).
    { apply Printer_children. revert IH. apply List.Forall_impl.
      intros x Hx w1. now apply Hx. }
    unfold Printer_text. cbn [TutorialPrinter_Accept].
    unfold TutorialPrinter_VisitTopCourse.
    cbn [TopCourse_children]. rewrite !Hch. reflexivity.
Qed.

(** C9. What the debug printer writes. [VisitLesson] writes the indentation,
    the name of the lesson, [ --- ], the sample of 60 characters that
    [util.SampleString] takes of the content, [...] and a newline, and keeps
    the indentation. [VisitCourse] writes the indentation, the name of the
    course and a newline, then what its children write, in order, at an
    indentation of exactly 3 columns more, and leaves the indentation as it
    was. [VisitTopCourse] writes what its children write, in order, at the
    same indentation, and nothing of its own. The indentation is a run of
    as many blanks as the counter says. *)
Theorem debug_printer_output (v : TutorialPrinter) :
  0 <= indent v <= fmt.max_width - 3 ->
  (forall l,
     TutorialPrinter_VisitLesson fs SampleString l v
     = mkTutorialPrinter (indent v)
         (w v +:+ spaces (indent v) +:+ Name fs (of_Lesson l) +:+ " --- "
            +:+ SampleString (Lesson_content l) 60 +:+ "..." +:+ fmt.LF))
  /\ (forall c,
        TutorialPrinter_VisitCourse fs Accept c v
        = mkTutorialPrinter (indent v)
            (w v +:+ spaces (indent v) +:+ Name fs (of_Course c) +:+ fmt.LF
               +:+ join_all (map (fun x => text x (indent v + 3))
                               (Course_children c))))
  /\ (forall t,
        TutorialPrinter_VisitTopCourse Accept t v
        = mkTutorialPrinter (indent v)
            (w v +:+ join_all (map (fun x => text x (indent v))
                                 (TopCourse_children t))))
  /\ spaces (indent v) = fmt.blanks (Z.to_nat (indent v))
  /\ spaces (indent v + 3) = fmt.blanks 3 +:+ spaces (indent v).
Proof.
  intros Hv. destruct v as [i w0]. cbn [indent w] in *.
  assert (Hi : int_range i).
  { unfold int_range, int_min, int_max, fmt.max_width in *. lia. }
  assert (Hi3 : int_range (i + 3)).
  { unfold int_range, int_min, int_max, fmt.max_width in *. lia. }
  split; [|split; [|split; [|split]]].
  - intros l. unfold TutorialPrinter_VisitLesson, fmt.Fprintf. cbn [indent w].
    now rewrite Sprintf_Lesson_line.
  - intros c. unfold TutorialPrinter_VisitCourse, fmt.Fprintf. cbn [indent w].
    rewrite Sprintf_Course_line, (wrap_int_id (i + 3) Hi3).
    rewrite Printer_children.
    + cbn [indent w]. replace (i + 3 - 3) with i by lia.
      rewrite (wrap_int_id i Hi). now rewrite !append_assoc.
    + apply List.Forall_forall. intros x _ w1.
      now apply Printer_Accept_frame.
  - intros t. unfold TutorialPrinter_VisitTopCourse. rewrite Printer_children.
    + reflexivity.
    + apply List.Forall_forall. intros x _ w1.
      now apply Printer_Accept_frame.
  - apply spaces_blanks.
  - apply spaces_three_more. lia.
Qed.

End PrinterFacts.

(** ** The content parser *)

Section ParserFacts.

Variable Block : Type.
Variable Parse : string -> gmap Label (list Block).

Local Abbreviation VisitLesson := (TutorialParser_VisitLesson Block Parse).
Local Abbreviation Accept := (TutorialParser_Accept Block Parse).

Lemma Parser_VisitLesson_spec (l : Lesson) (v : TutorialParser Block) :
  VisitLesson l v
  = mkTutorialParser (label v)
      (parsedFiles v
         ++ omap (parsed_of Parse (label v)) [of_Lesson l]).
Proof.
  unfold TutorialParser_VisitLesson.
  destruct l as [filepath content], v as [lbl files].
  cbn. destruct (Parse content !! lbl); cbn; [reflexivity|].
  now rewrite app_nil_r.
Qed.

Lemma Parser_children (children : list Tutorial) :
  Forall (fun x => forall v,
            Accept x v
            = mkTutorialParser (label v)
                (parsedFiles v
                   ++ omap (parsed_of Parse (label v)) (preorder x)))
    children ->
  forall v,
    fold_left (fun v x => Accept x v) children v
    = mkTutorialParser (label v)
        (parsedFiles v
           ++ omap (parsed_of Parse (label v)) (flat_map preorder children)).
Proof.
  induction 1 as [|x children Hx _ IH]; intros v; cbn [fold_left flat_map].
  - cbn. rewrite app_nil_r. now destruct v.
  - rewrite IH, Hx. cbn [label parsedFiles].
    now rewrite omap_app, app_assoc.
Qed.

(** The parser keeps, in the order of the walk, what each node yields for its
    label, after what it kept before. *)
Lemma Parser_Accept_spec (t : Tutorial) :
  forall v,
    Accept t v
    = mkTutorialParser (label v)
        (parsedFiles v ++ omap (parsed_of Parse (label v)) (preorder t)).
Proof.
  induction t as [filepath content|filepath children IH|filepath children IH]
    using Tutorial_induction; intros v.
  - cbn [TutorialParser_Accept]. now rewrite Parser_VisitLesson_spec.
  - cbn [TutorialParser_Accept]. unfold TutorialParser_VisitCourse.
    cbn [Course_children].
    now rewrite (Parser_children children IH).
  - cbn [TutorialParser_Accept]. unfold TutorialParser_VisitTopCourse.
    cbn [TopCourse_children]. now rewrite (Parser_children children IH).
Qed.

(** C2, as amended. [VisitLesson] appends a parsed-file result that pairs the
    path of the lesson with the blocks exactly when the map that [lexer.Parse]
    makes of the content has the label of the parser as a key, whatever the
    list of blocks, the empty list too; when the label is no key the visitor
    is left as it was, and nothing fails. Over a tree the results come one
    after the other in the order of the visit. *)
Theorem content_parser_keeps_the_blocks_under_its_label (l : Lesson)
    (t : Tutorial) (v : TutorialParser Block) :
  (forall blocks,
     Parse (Lesson_content l) !! label v = Some blocks
     <-> Files (VisitLesson l v)
         = Files v ++ [NewParsedFile (Lesson_filepath l) blocks])
  /\ (Parse (Lesson_content l) !! label v = None <-> VisitLesson l v = v)
  /\ label (VisitLesson l v) = label v
  /\ Files (Accept t v)
     = Files v ++ omap (parsed_of Parse (label v)) (preorder t)
  /\ label (Accept t v) = label v.
Proof.
  split; [|split; [|split; [|split]]].
  - intros blocks. unfold TutorialParser_VisitLesson, Files.
    destruct l as [filepath content], v as [lbl files]. cbn.
    destruct (Parse content !! lbl) as [blocks'|]; cbn; split.
    + now intros [= ->].
    + intros H. apply app_inv_head in H. now injection H as ->.
    + discriminate.
    + intros H. rewrite <- (app_nil_r files) in H at 1.
      apply app_inv_head in H. discriminate.
  - unfold TutorialParser_VisitLesson.
    destruct l as [filepath content], v as [lbl files]. cbn.
    destruct (Parse content !! lbl) as [blocks'|]; split; try easy.
    intros [= H]. rewrite <- (app_nil_r files) in H at 2.
    apply app_inv_head in H. discriminate.
  - now rewrite Parser_VisitLesson_spec.
  - now rewrite Parser_Accept_spec.
  - now rewrite Parser_Accept_spec.
Qed.

End ParserFacts.

(** ** The order of the visits *)

Section VisitOrder.

Variable fs : FileSystem.
Variable SampleString : string -> Z -> string.
Variable Block : Type.
Variable Parse : string -> gmap Label (list Block).

(** The record of a walk over the children is the record of the walks over
    each child, in order. *)
Lemma walk_children {V : Type}
    (walk : Tutorial -> V * list Tutorial -> V * list Tutorial)
    (accept : Tutorial -> V -> V) (children : list Tutorial) :
  Forall (fun x => forall v seen,
            walk x (v, seen) = (accept x v, seen ++ preorder x)) children ->
  forall v seen,
    fold_left (fun s x => walk x s) children (v, seen)
    = (fold_left (fun v x => accept x v) children v,
       seen ++ flat_map preorder children).
Proof.
  induction 1 as [|x children Hx _ IH]; intros v seen; cbn [fold_left flat_map].
  - now rewrite app_nil_r.
  - now rewrite Hx, IH, app_assoc.
Qed.

Lemma Printer_walk_spec (t : Tutorial) :
  forall v seen,
    Printer_walk fs SampleString t (v, seen)
    = (TutorialPrinter_Accept fs SampleString t v, seen ++ preorder t).
Proof.
  induction t as [filepath content|filepath children IH|filepath children IH]
    using Tutorial_induction; intros v seen.
  - reflexivity.
  - cbn [Printer_walk TutorialPrinter_Accept fst snd].
    unfold TutorialPrinter_VisitCourse.
    cbn [Course_children indent w].
    rewrite (walk_children _ _ children IH). cbn [fst snd preorder].
    now rewrite <- app_assoc.
  - cbn [Printer_walk TutorialPrinter_Accept fst snd].
    unfold TutorialPrinter_VisitTopCourse.
    cbn [TopCourse_children].
    rewrite (walk_children _ _ children IH). cbn [preorder].
    now rewrite <- app_assoc.
Qed.

Lemma Parser_walk_spec (t : Tutorial) :
  forall v seen,
    Parser_walk Block Parse t (v, seen)
    = (TutorialParser_Accept Block Parse t v, seen ++ preorder t).
Proof.
  induction t as [filepath content|filepath children IH|filepath children IH]
    using Tutorial_induction; intros v seen.
  - reflexivity.
  - cbn [Parser_walk TutorialParser_Accept fst snd].
    unfold TutorialParser_VisitCourse.
    cbn [Course_children].
    rewrite (walk_children _ _ children IH). cbn [preorder].
    now rewrite <- app_assoc.
  - cbn [Parser_walk TutorialParser_Accept fst snd].
    unfold TutorialParser_VisitTopCourse.
    cbn [TopCourse_children].
    rewrite (walk_children _ _ children IH). cbn [preorder].
    now rewrite <- app_assoc.
Qed.

Lemma Nav_walk_spec (t : Tutorial) :
  forall v seen,
    Nav_walk fs t (v, seen)
    = (TutorialNavPrinter_Accept fs t v, seen ++ preorder t).
Proof.
  induction t as [filepath content|filepath children IH|filepath children IH]
    using Tutorial_induction; intros v seen.
  - reflexivity.
  - cbn [Nav_walk TutorialNavPrinter_Accept fst snd].
    unfold TutorialNavPrinter_VisitCourse, Nav_render.
    cbn [of_Course Course_filepath Course_children Children].
    rewrite (walk_children _ _ children IH). cbn [fst snd preorder].
    now rewrite <- app_assoc.
  - cbn [Nav_walk TutorialNavPrinter_Accept fst snd].
    unfold TutorialNavPrinter_VisitTopCourse, Nav_render.
    cbn [of_TopCourse TopCourse_filepath TopCourse_children Children].
    rewrite (walk_children _ _ children IH). cbn [fst snd preorder].
    now rewrite <- app_assoc.
Qed.

(** C8. On every tree the three visitors have their methods called on the
    same nodes in the same order: the nodes of the tree in pre-order, each
    node before its children and the children in stored order, none left out
    and none twice; so the Lessons come in the same order too. The recorded
    walks are the visitors themselves: they leave the visitor as [Accept]
    does. *)
Theorem visitors_visit_in_the_same_order (t : Tutorial)
    (vp : TutorialPrinter) (vq : TutorialParser Block)
    (vn : TutorialNavPrinter) :
  (Printer_walk fs SampleString t (vp, [])).2 = preorder t
  /\ (Parser_walk Block Parse t (vq, [])).2 = preorder t
  /\ (Nav_walk fs t (vn, [])).2 = preorder t
  /\ List.filter is_Lesson (Printer_walk fs SampleString t (vp, [])).2
     = lessons t
  /\ List.filter is_Lesson (Parser_walk Block Parse t (vq, [])).2 = lessons t
  /\ List.filter is_Lesson (Nav_walk fs t (vn, [])).2 = lessons t
  /\ (Printer_walk fs SampleString t (vp, [])).1
     = TutorialPrinter_Accept fs SampleString t vp
  /\ (Parser_walk Block Parse t (vq, [])).1
     = TutorialParser_Accept Block Parse t vq
  /\ (Nav_walk fs t (vn, [])).1 = TutorialNavPrinter_Accept fs t vn.
Proof.
  rewrite Printer_walk_spec, Parser_walk_spec, Nav_walk_spec.
  cbn [fst snd app]. unfold lessons. repeat split.
Qed.

End VisitOrder.

(** ** The navigation printer *)

Section NavPrinterFacts.

Variable fs : FileSystem.

(** Writing rows one after the other: each is a line of its own, indented by
    2 spaces per depth and ended by a newline. *)
Local Abbreviation write_rows :=
  (fold_left (fun out (row : nat * string) => nav_line row.1 row.2 out)).

Lemma Nav_Accept_render (t : Tutorial) (v : TutorialNavPrinter) :
  TutorialNavPrinter_Accept fs t v
  = Nav_render fs (TutorialNavPrinter_Accept fs) t v.
Proof. destruct t; reflexivity. Qed.

Lemma Nav_children_rows (children : list Tutorial) :
  Forall (fun x => forall v,
            exists rows,
              nav_w (TutorialNavPrinter_Accept fs x v)
              = write_rows rows (nav_w v))
    children ->
  forall v,
    exists rows,
      nav_w (fold_left (fun v x => TutorialNavPrinter_Accept fs x v) children v)
      = write_rows rows (nav_w v).
Proof.
  induction 1 as [|x children Hx _ IH]; intros v; cbn [fold_left].
  - now exists [].
  - destruct (IH (TutorialNavPrinter_Accept fs x v)) as (rows2 & ->).
    destruct (Hx v) as (rows1 & ->).
    exists (rows1 ++ rows2). now rewrite fold_left_app.
Qed.

(** All the NavPrinter writes is whole lines. *)
Lemma Nav_Accept_rows (t : Tutorial) :
  forall v,
    exists rows,
      nav_w (TutorialNavPrinter_Accept fs t v) = write_rows rows (nav_w v).
Proof.
  induction t as [filepath content|filepath children IH|filepath children IH]
    using Tutorial_induction; intros v.
  - rewrite Nav_Accept_render. unfold Nav_render.
    cbn [Children fold_left nav_w].
    eexists [(_, _); (_, _); (_, _); (_, _); (_, _)].
    cbn [fold_left fst snd]. reflexivity.
  - rewrite Nav_Accept_render. unfold Nav_render. cbn [Children nav_w].
    match goal with
    | |- context [fold_left _ children ?v1] =>
        destruct (Nav_children_rows children IH v1) as (rows & ->)
    end.
    cbn [nav_w].
    eexists ([(_, _); (_, _); (_, _)] ++ rows ++ [(_, _); (_, _)]).
    rewrite !fold_left_app. cbn [fold_left fst snd]. reflexivity.
  - rewrite Nav_Accept_render. unfold Nav_render. cbn [Children nav_w].
    match goal with
    | |- context [fold_left _ children ?v1] =>
        destruct (Nav_children_rows children IH v1) as (rows & ->)
    end.
    cbn [nav_w].
    eexists ([(_, _); (_, _); (_, _)] ++ rows ++ [(_, _); (_, _)]).
    rewrite !fold_left_app. cbn [fold_left fst snd]. reflexivity.
Qed.

(** C4. The NavPrinter renders the two trees of its test byte for byte as the
    test wants them: the single empty Lesson as the five lines that name it
    [.], hold the leaf handle [assureActive('L0')] and the open body [n1];
    the Course [hey] over that Lesson as the nested fragment with the handle
    [toggle('n1')] and the open body [n1] outside, and the handle
    [assureActive('L0')] and the closed body [n2] inside. Whatever the tree,
    what is written is a sequence of lines, each indented by 2 spaces per
    depth and ended by a newline. *)
Theorem NavPrinter_renders_the_test_trees :
  Base fs = filepath.Base ->
  nav_w (TutorialNavPrinter_Accept fs emptyLesson
           (NewTutorialNavPrinter EmptyString))
  = want_emptyLesson
  /\ nav_w (TutorialNavPrinter_Accept fs course1
              (NewTutorialNavPrinter EmptyString))
     = want_smallCourse
  /\ (forall t v,
        exists rows : list (nat * string),
          nav_w (TutorialNavPrinter_Accept fs t v)
          = fold_left (fun out row => nav_line row.1 row.2 out) rows (nav_w v)).
Proof.
  intros HBase. split; [|split].
  - destruct fs as [a b c d e]. cbn in HBase. subst e. vm_compute. reflexivity.
  - destruct fs as [a b c d e]. cbn in HBase. subst e. vm_compute. reflexivity.
  - intros t v. apply Nav_Accept_rows.
Qed.

End NavPrinterFacts.

(** ** The loaders and the visitors at work *)

(** C6. A candidate that [os.Stat] cannot find is not answered with false:
    both filters panic on it, on the line that is to log the failure, which
    calls [s.Name()] on the nil [FileInfo] that comes with the error. Here the
    candidate is the entry of a directory that links to a file that is
    gone. *)
Theorem filters_panic_when_Stat_fails :
  lookup_path dangling "links/gone.md"
  = inr (no_such "stat" "links/gone.md")
  /\ isDesirableFile dangling "links/gone.md" = Panicked
  /\ isDesirableDir dangling "links/gone.md" = Panicked
  /\ forall fuel, scanDir dangling (S fuel) "links" = Panicked.
Proof. repeat split. Qed.

(** C5. A root that does not exist is neither a desirable file nor a
    desirable directory, and yet [LoadOne] does not fail with the error
    "Cannot process", nor [LoadMany] with "Nothing useful found": the filter
    panics, and the loaders return nothing. (A root that exists and is not
    desirable, such as a text file, does get the error.) *)
Theorem loaders_panic_on_a_missing_path :
  lookup_path benelux "missing.md" = inr (no_such "stat" "missing.md")
  /\ (forall fuel, LoadOne benelux fuel "missing.md" = Panicked)
  /\ (forall fuel, LoadMany benelux fuel ["missing.md"] = Panicked)
  /\ (forall fuel, LoadMany benelux fuel ["missing.md"; "gone"] = Panicked)
  /\ value (LoadOne benelux 1 "benelux/notes.txt")
     = Some (nil_Tutorial,
             Some (errors_New "Cannot process benelux/notes.txt")).
Proof. repeat split. Qed.

(** C1 does not hold as stated: the tree [LoadOne] returns for a desirable
    file is a single Lesson, with no TopCourse in it. *)
Lemma LoadOne_of_a_file_holds_no_TopCourse :
  ~ (forall fs root t,
       LoadOne_returns fs root (node t, None) ->
       count_TopCourse t = 1%nat /\ is_TopCourse t = true).
Proof.
  intros H.
  destruct (H benelux "solo.md" (ptrLesson "solo.md" "Alone")) as [H1 _].
  - exists 1%nat. eexists. reflexivity.
  - discriminate H1.
Qed.

Lemma loaded_tree_is_a_Lesson_or_has_one_TopCourse_at_the_root_witness :
  LoadOne_returns benelux "benelux" (node benelux_tree, None)
  /\ ((returns (isDesirableFile benelux "benelux") true
       /\ (exists content, benelux_tree = ptrLesson "benelux" content)
       /\ count_TopCourse benelux_tree = 0%nat)
      \/ (returns (isDesirableFile benelux "benelux") false
          /\ (exists children, benelux_tree = ptrTopCourse "benelux" children)
          /\ Name benelux benelux_tree = EmptyString
          /\ Path benelux_tree = "benelux"
          /\ count_TopCourse benelux_tree = 1%nat)).
Proof.
  assert (H : LoadOne_returns benelux "benelux" (node benelux_tree, None)).
  { exists 2%nat. eexists. reflexivity. }
  split; [exact H|].
  exact (proj1 (loaded_tree_is_a_Lesson_or_has_one_TopCourse_at_the_root
                  benelux) "benelux" benelux_tree H).
Defined.

Lemma loaders_return_a_tree_or_an_error_witness :
  LoadOne_returns benelux "benelux" (node benelux_tree, None)
  /\ exists t, node benelux_tree = node t.
Proof.
  assert (H : LoadOne_returns benelux "benelux" (node benelux_tree, None)).
  { exists 2%nat. eexists. reflexivity. }
  split; [exact H|].
  exact (proj1 (loaders_return_a_tree_or_an_error benelux)
           "benelux" (node benelux_tree) H).
Defined.

Lemma loaded_trees_are_well_shaped_witness :
  LoadOne_returns benelux "benelux" (node benelux_tree, None)
  /\ well_shaped benelux_tree.
Proof.
  assert (H : LoadOne_returns benelux "benelux" (node benelux_tree, None)).
  { exists 2%nat. eexists. reflexivity. }
  split; [exact H|].
  exact (proj1 (loaded_trees_are_well_shaped benelux)
           "benelux" benelux_tree H).
Defined.

Lemma debug_printer_output_witness :
  0 <= indent (NewTutorialPrinter EmptyString) <= fmt.max_width - 3
  /\ TutorialPrinter_VisitLesson benelux SampleString_all
       (mkLesson "solo.md" "Alone") (NewTutorialPrinter EmptyString)
     = mkTutorialPrinter 0 ("solo.md --- Alone..." +:+ fmt.LF).
Proof.
  assert (H : 0 <= indent (NewTutorialPrinter EmptyString)
              <= fmt.max_width - 3).
  { cbn. unfold fmt.max_width. lia. }
  split; [exact H|].
  exact (proj1 (debug_printer_output benelux SampleString_all
                  (NewTutorialPrinter EmptyString) H)
           (mkLesson "solo.md" "Alone")).
Defined.

Lemma NavPrinter_renders_the_test_trees_witness :
  Base benelux = filepath.Base
  /\ nav_w (TutorialNavPrinter_Accept benelux emptyLesson
              (NewTutorialNavPrinter EmptyString))
     = want_emptyLesson.
Proof.
  split; [reflexivity|].
  exact (proj1 (NavPrinter_renders_the_test_trees benelux eq_refl)).
Defined.

(** C2 does not hold as stated: a label with an empty list of blocks under it
    is appended all the same. *)
Lemma VisitLesson_keeps_an_empty_list_of_blocks :
  ~ (forall (Parse : string -> gmap Label (list string)) (l : Lesson)
            (v : TutorialParser string),
       (exists blocks,
          Files (TutorialParser_VisitLesson string Parse l v)
          = Files v ++ [NewParsedFile (Lesson_filepath l) blocks])
       <-> (exists blocks,
              Parse (Lesson_content l) !! label v = Some blocks
              /\ blocks <> [])).
Proof.
  intros H.
  destruct (proj1 (H Parse_bare (mkLesson "solo.md" "Alone")
                     (NewTutorialParser "run")))
    as (blocks & Hlookup & Hne).
  - exists []. reflexivity.
  - apply Hne. change (Some [] = Some blocks) in Hlookup. congruence.
Qed.

(** * Further properties of the loader and of the visitors *)

(** ** The filters *)

Section FilterFacts.

Variable fs : FileSystem.

Lemma wanted_file_not_dir (s : os.FileInfo) :
  wanted_file s = true -> wanted_dir s = false.
Proof.
  unfold wanted_file, wanted_dir. destruct (os.IsDir s); [|reflexivity].
  discriminate.
Qed.

Lemma wanted_dir_not_file (s : os.FileInfo) :
  wanted_dir s = true -> wanted_file s = false.
Proof.
  unfold wanted_file, wanted_dir. destruct (os.IsDir s); [reflexivity|].
  discriminate.
Qed.

(** X1. No path is both a desirable file and a desirable directory: where
    [isDesirableFile] returns true [isDesirableDir] returns false, and the
    other way round, so that the order of the two tests in the loops of the
    scanner decides nothing. *)
Theorem desirable_file_and_desirable_dir_exclude_each_other (n : FilePath) :
  (returns (isDesirableFile fs n) true -> returns (isDesirableDir fs n) false)
  /\ (returns (isDesirableDir fs n) true
      -> returns (isDesirableFile fs n) false).
Proof.
  split.
  - intros H. apply isDesirableFile_true_iff in H as (s & Hs & Hw).
    destruct (isDesirableDir_stat_ok fs n s Hs) as (log & Hd & _).
    exists log. now rewrite Hd, (wanted_file_not_dir s Hw).
  - intros H. apply isDesirableDir_true_iff in H as (s & Hs & Hw).
    destruct (isDesirableFile_stat_ok fs n s Hs) as (log & Hf & _).
    exists log. now rewrite Hf, (wanted_dir_not_file s Hw).
Qed.

(** X2. The filters panic exactly when [os.Stat] fails. In particular the
    index [base[0]] of [isDesirableFile] is never out of range, because
    [filepath.Base] never returns the empty string. *)
Theorem filters_panic_exactly_when_Stat_fails (n : FilePath) :
  (isDesirableFile fs n = Panicked <-> exists err, lookup_path fs n = inr err)
  /\ (isDesirableDir fs n = Panicked
      <-> exists err, lookup_path fs n = inr err).
Proof.
  destruct (lookup_path fs n) as [s|err] eqn:Hs.
  - destruct (isDesirableFile_stat_ok fs n s Hs) as (log & Hf & _).
    destruct (isDesirableDir_stat_ok fs n s Hs) as (log' & Hd & _).
    rewrite Hf, Hd. split; split; try discriminate; intros (err & [=]).
  - rewrite (isDesirableFile_stat_error fs n err Hs).
    rewrite (isDesirableDir_stat_error fs n err Hs).
    split; split; eauto.
Qed.

(** X3. A filter that returns has logged one line if it returns false, and
    nothing if it returns true. *)
Theorem filters_log_one_line_per_rejection (n : FilePath) (b : bool)
    (log : list string) :
  (isDesirableFile fs n = Done b log
   -> length log = if b then 0%nat else 1%nat)
  /\ (isDesirableDir fs n = Done b log
      -> length log = if b then 0%nat else 1%nat).
Proof.
  split; intros H.
  - destruct (lookup_path fs n) as [s|err] eqn:Hs.
    + destruct (isDesirableFile_stat_ok fs n s Hs) as (log' & Hf & Hlen).
      rewrite Hf in H. injection H as <- <-. exact Hlen.
    + now rewrite (isDesirableFile_stat_error fs n err Hs) in H.
  - destruct (lookup_path fs n) as [s|err] eqn:Hs.
    + destruct (isDesirableDir_stat_ok fs n s Hs) as (log' & Hd & Hlen).
      rewrite Hd in H. injection H as <- <-. exact Hlen.
    + now rewrite (isDesirableDir_stat_error fs n err Hs) in H.
Qed.

Lemma plain_name_Base (name : string) :
  name <> EmptyString -> plain_name name = true -> filepath.Base name = name.
Proof. intros Hne Hplain. now apply Base_plain. Qed.

(** X4. A file whose name starts with [~], [.] or [#] is rejected, whatever
    its extension and its mode: [isDesirableFile] returns false. *)
Theorem files_with_a_bad_leading_char_are_rejected (n : FilePath)
    (s : os.FileInfo) (b : ascii) (rest : string) :
  lookup_path fs n = inl s ->
  os.Name s = String b rest ->
  plain_name (os.Name s) = true ->
  In b ["~"%char; "."%char; "#"%char] ->
  returns (isDesirableFile fs n) false.
Proof.
  intros Hs Hname Hplain Hb.
  destruct (isDesirableFile_stat_ok fs n s Hs) as (log & Hf & _).
  exists log. rewrite Hf. f_equal. unfold wanted_file.
  rewrite (plain_name_Base (os.Name s)); [|now rewrite Hname|assumption].
  rewrite Hname. cbn [first_byte_in].
  assert (existsb (Ascii.eqb b) ["~"%char; "."%char; "#"%char] = true) as ->.
  { apply existsb_exists. exists b. split; [assumption|apply Ascii.eqb_refl]. }
  cbn [negb]. now rewrite andb_false_r.
Qed.

(** X5. What [isDesirableDir] makes of a directory depends on its name: the
    names [.], [./] and [..] pass; any other name that starts with a dot is
    rejected (and would be if it were no directory); a name that starts with
    another byte passes. *)
Theorem directories_are_filtered_by_name (n : FilePath) (s : os.FileInfo) :
  lookup_path fs n = inl s ->
  (os.IsDir s = true ->
   os.Name s = "." \/ os.Name s = "./" \/ os.Name s = ".." ->
   returns (isDesirableDir fs n) true)
  /\ (forall rest,
        os.Name s = String "."%char rest ->
        plain_name (os.Name s) = true ->
        os.Name s <> "." -> os.Name s <> ".." ->
        returns (isDesirableDir fs n) false)
  /\ (forall b rest,
        os.IsDir s = true ->
        os.Name s = String b rest ->
        plain_name (os.Name s) = true ->
        b <> "."%char ->
        returns (isDesirableDir fs n) true).
Proof.
  intros Hs. destruct (isDesirableDir_stat_ok fs n s Hs) as (log & Hd & _).
  split; [|split].
  - intros Hdir Hname. exists log. rewrite Hd. f_equal. unfold wanted_dir.
    rewrite Hdir. destruct Hname as [->|[->| ->]]; reflexivity.
  - intros rest Hname Hplain Hdot Hdotdot. exists log. rewrite Hd. f_equal.
    unfold wanted_dir.
    rewrite (plain_name_Base (os.Name s)); [|now rewrite Hname|assumption].
    assert (String.eqb (os.Name s) "." = false) as ->
      by now apply String.eqb_neq.
    assert (String.eqb (os.Name s) ".." = false) as ->
      by now apply String.eqb_neq.
    assert (String.eqb (os.Name s) "./" = false) as ->.
    { apply String.eqb_neq. intros Heq. rewrite Heq in Hplain.
      discriminate Hplain. }
    rewrite Hname. cbn. now rewrite andb_false_r.
  - intros b rest Hdir Hname Hplain Hb. exists log. rewrite Hd. f_equal.
    unfold wanted_dir. rewrite Hdir.
    rewrite (plain_name_Base (os.Name s)); [|now rewrite Hname|assumption].
    rewrite Hname. cbn [first_byte_in existsb].
    assert (Ascii.eqb b "."%char = false) as -> by now apply Ascii.eqb_neq.
    cbn. now rewrite !orb_true_r.
Qed.

End FilterFacts.

Section MarkdownFiles.

Variable fs : FileSystem.

Lemma list_ascii_of_string_append (a b : string) :
  list_ascii_of_string (a +:+ b)
  = list_ascii_of_string a ++ list_ascii_of_string b.
Proof.
  induction a as [|c a IH]; [reflexivity|].
  change (c :: list_ascii_of_string (a +:+ b)
          = c :: (list_ascii_of_string a ++ list_ascii_of_string b)).
  now f_equal.
Qed.

(** The extension of a name that ends in [.md] is [.md], whatever comes
    before. *)
Lemma Ext_md (stem : string) : filepath.Ext (stem +:+ ".md") = ".md".
Proof.
  unfold filepath.Ext. rewrite list_ascii_of_string_append, rev_app_distr.
  reflexivity.
Qed.

(** X6. A regular file is desirable when its name ends in [.md] and starts
    with a byte other than [~], [.] and [#]: [isDesirableFile] returns true,
    and logs nothing. *)
Theorem markdown_files_are_desirable (n : FilePath) (s : os.FileInfo)
    (b : ascii) (stem : string) :
  lookup_path fs n = inl s ->
  os.FileMode_IsRegular (os.Mode s) = true ->
  os.Name s = String b stem +:+ ".md" ->
  plain_name (os.Name s) = true ->
  ~ In b ["~"%char; "."%char; "#"%char] ->
  isDesirableFile fs n = Done true [].
Proof.
  intros Hs Hreg Hname Hplain Hb.
  destruct (isDesirableFile_stat_ok fs n s Hs) as (log & Hf & Hlen).
  assert (Hw : wanted_file s = true).
  { unfold wanted_file. rewrite Hreg.
    assert (os.IsDir s = false) as ->.
    { unfold os.IsDir, os.FileMode_IsDir.
      unfold os.FileMode_IsRegular in Hreg. apply Z.eqb_eq in Hreg.
      apply negb_false_iff, Z.eqb_eq. apply Z.bits_inj'. intros k Hk.
      rewrite Z.land_spec, Z.bits_0.
      assert (Hbit : Z.testbit (Z.land (os.Mode s) os.ModeType) k = false)
        by now rewrite Hreg, Z.bits_0.
      rewrite Z.land_spec in Hbit.
      destruct (Z.testbit os.ModeDir k) eqn:Hdir; [|apply andb_false_r].
      assert (Hty : Z.testbit os.ModeType k = true).
      { unfold os.ModeType. rewrite Z.lor_spec, Hdir. reflexivity. }
      rewrite Hty in Hbit. now rewrite Hbit. }
    rewrite (plain_name_Base (os.Name s)); [|now rewrite Hname|assumption].
    rewrite Hname at 1. rewrite (Ext_md (String b stem)).
    rewrite Hname. change (String b stem +:+ ".md")
      with (String b (stem +:+ ".md")).
    cbn [first_byte_in negb andb].
    rewrite String.eqb_refl. cbn [andb]. apply negb_true_iff.
    destruct (existsb (Ascii.eqb b) ["~"%char; "."%char; "#"%char]) eqn:He;
      [|reflexivity].
    apply existsb_exists in He as (c & Hc & Heq).
    apply Ascii.eqb_eq in Heq. subst c. contradiction. }
  rewrite Hw in Hf, Hlen. destruct log; [exact Hf|discriminate Hlen].
Qed.

End MarkdownFiles.

(** ** Loaded trees and the disk *)

Section TreesOnDisk.

Variable fs : FileSystem.

Lemma all_from_disk_Lesson (p : FilePath) (content : string) :
  returns (isDesirableFile fs p) true -> Read fs p = inl content ->
  all_from_disk fs (ptrLesson p content).
Proof. intros Hf Hr x [<-|[]]. now split. Qed.

Lemma all_from_disk_children (x : Tutorial) (children : list Tutorial) :
  Forall (all_from_disk fs) children ->
  In x (flat_map preorder children) -> from_disk fs x.
Proof.
  intros Hall Hx. apply in_flat_map in Hx as (y & Hy & Hx).
  rewrite List.Forall_forall in Hall. now apply (Hall y Hy).
Qed.

Lemma all_from_disk_Course (p : FilePath) (c : Course) :
  returns (isDesirableFile fs p) false ->
  returns (isDesirableDir fs p) true ->
  listed_Course fs p c ->
  all_from_disk fs (of_Course c).
Proof.
  intros Hf Hd (Hpath & Hne & Hlist & Hall) x [<-|Hx].
  - cbn. rewrite Hpath. auto.
  - now apply all_from_disk_children with (Course_children c).
Qed.

(** A round that goes on has added nothing, or one node for the candidate. *)
Lemma gathers_added {R} (scan : FilePath -> M (option Course * option error))
    (fail : error -> R) (p : FilePath) (items items' : list Tutorial) :
  (forall c, returns (scan p) (Some c, None) -> listed_Course fs p c) ->
  gathers fs scan fail p items (Continue items') ->
  exists added,
    items' = items ++ added
    /\ (added = []
        \/ exists x, added = [x] /\ Path x = p /\ all_from_disk fs x).
Proof.
  intros Hscan H.
  inversion H as [content Hf Hr|?|c Hf Hd Hs|Hf Hd Hs|?|Hf Hd]; subst.
  - exists [ptrLesson p content]. split; [reflexivity|]. right.
    eexists. split; [reflexivity|]. split; [reflexivity|].
    now apply all_from_disk_Lesson.
  - exists [of_Course c]. split; [reflexivity|]. right.
    eexists. split; [reflexivity|].
    pose proof (Hscan c Hs) as Hc. split; [apply Hc|].
    now apply all_from_disk_Course with p.
  - exists []. split; [now rewrite app_nil_r|now left].
  - exists []. split; [now rewrite app_nil_r|now left].
Qed.

Lemma range_files_added
    (scan : FilePath -> M (option Course * option error)) (d : FilePath)
    (files : list string) :
  (forall q c, returns (scan q) (Some c, None) -> listed_Course fs q c) ->
  forall items items',
    returns (range_files fs scan d files items) (Continue items') ->
    exists added,
      items' = items ++ added
      /\ sublist (map Path added) (map (Join fs d) files)
      /\ Forall (all_from_disk fs) added.
Proof.
  intros Hscan. induction files as [|f rest IH]; intros items items'.
  - rewrite returns_range_files_nil. intros [= ->]. exists [].
    split; [now rewrite app_nil_r|]. split; constructor.
  - rewrite returns_range_files_cons. intros ([items1|y] & Hx & H);
      [|discriminate].
    apply gathers_added in Hx as (a1 & -> & Ha1); [|apply Hscan].
    apply IH in H as (a2 & -> & Hsub & Hall).
    exists (a1 ++ a2). split; [now rewrite app_assoc|].
    destruct Ha1 as [->|(x & -> & Hpath & Hx)]; cbn [app map].
    + split; [now apply sublist_cons|assumption].
    + rewrite Hpath. split; [now apply sublist_skip|now constructor].
Qed.

Lemma range_fileNames_added (fuel : nat) (fileNames : list FilePath) :
  (forall q c,
     returns (scanDir fs fuel q) (Some c, None) -> listed_Course fs q c) ->
  forall items items',
    returns (range_fileNames fs fuel fileNames items) (Continue items') ->
    exists added,
      items' = items ++ added
      /\ sublist (map Path added) fileNames
      /\ Forall (all_from_disk fs) added.
Proof.
  intros Hscan. induction fileNames as [|f rest IH]; intros items items'.
  - rewrite returns_range_fileNames_nil. intros [= ->]. exists [].
    split; [now rewrite app_nil_r|]. split; constructor.
  - rewrite returns_range_fileNames_cons. intros ([items1|y] & Hx & H);
      [|discriminate].
    apply gathers_added in Hx as (a1 & -> & Ha1); [|apply Hscan].
    apply IH in H as (a2 & -> & Hsub & Hall).
    exists (a1 ++ a2). split; [now rewrite app_assoc|].
    destruct Ha1 as [->|(x & -> & Hpath & Hx)]; cbn [app map].
    + split; [now apply sublist_cons|assumption].
    + rewrite Hpath. split; [now apply sublist_skip|now constructor].
Qed.

Lemma scanDir_listed (fuel : nat) :
  forall d c,
    returns (scanDir fs fuel d) (Some c, None) -> listed_Course fs d c.
Proof.
  induction fuel as [|fuel IH]; intros d c H.
  - now apply scanDir_O in H.
  - apply returns_scanDir_S in H
      as [(err & _ & [=])|(files & [items|y] & Hdir & Hx & H)].
    + destruct items as [|t items]; [discriminate|]. injection H as ->.
      apply (range_files_added (scanDir fs fuel) d files IH) in Hx
        as (added & Heq & Hsub & Hall).
      cbn [app] in Heq. subst added.
      split; [reflexivity|]. split; [discriminate|]. split; [|exact Hall].
      exists files. now split.
    + subst y. apply range_files_Return in Hx as (err & [=]).
Qed.

(** X7. The children of the Course [scanDir] returns for a directory are
    entries of that directory: their paths are a sublist of the paths of the
    entries listed, in the order of the listing, so that no entry is taken
    twice and none is moved; and every node below them sits on disk, a Lesson
    as a desirable file with the content read from it, a Course as a listed
    desirable directory. *)
Theorem scanDir_children_follow_the_listing (d : FilePath) (c : Course) :
  scanDir_returns fs d (Some c, None) ->
  Course_filepath c = d
  /\ (exists files,
        ReadDir fs d = inl files
        /\ sublist (map Path (Course_children c)) (map (Join fs d) files))
  /\ Forall (all_from_disk fs) (Course_children c).
Proof.
  intros [fuel H]. apply scanDir_listed in H as (Hpath & _ & Hlist & Hall).
  auto.
Qed.

(** X8. In a tree [LoadOne] returns every Lesson is a desirable file with the
    content [Read] returns for it, and every Course a desirable directory: no
    hidden file, no file of another kind and no dot directory gets into the
    tree. When the tree is a TopCourse, the root is a desirable directory,
    and the children are entries of the root in the order of its listing,
    one at least. *)
Theorem LoadOne_tree_sits_on_disk (root : FilePath) (t : Tutorial) :
  LoadOne_returns fs root (node t, None) ->
  all_from_disk fs t
  /\ match t with
     | ptrLesson p _ => p = root
     | ptrCourse _ _ => False
     | ptrTopCourse p children =>
         p = root
         /\ returns (isDesirableDir fs root) true
         /\ children <> []
         /\ exists files,
              ReadDir fs root = inl files
              /\ sublist (map Path children) (map (Join fs root) files)
     end.
Proof.
  intros [fuel H]. apply returns_LoadOne in H.
  inversion H as [content Hf Hr|?|c Hf Hd Hs|?|?|?]; subst.
  - split; [now apply all_from_disk_Lesson|reflexivity].
  - apply scanDir_listed in Hs as (_ & Hne & Hlist & Hall). split.
    + intros x [<-|Hx]; [exact I|].
      now apply all_from_disk_children with (Course_children c).
    + auto.
Qed.

(** X9. A tree [LoadMany] returns for two paths or more is a TopCourse whose
    children stand for some of the paths given, in the order given, one
    child at most for a path and one child at least in all; every node below
    sits on disk as in X8. *)
Theorem LoadMany_tree_follows_the_paths_given (f g : FilePath)
    (rest : list FilePath) (t : Tutorial) :
  LoadMany_returns fs (f :: g :: rest) (node t, None) ->
  all_from_disk fs t
  /\ exists children,
       t = ptrTopCourse EmptyString children
       /\ children <> []
       /\ sublist (map Path children) (f :: g :: rest).
Proof.
  intros [fuel H]. apply returns_LoadMany_several in H as ([items|y] & Hx & H).
  - destruct items as [|x items]; [discriminate|]. injection H as ->.
    apply (range_fileNames_added fuel (f :: g :: rest) (scanDir_listed fuel))
      in Hx as (added & Heq & Hsub & Hall).
    cbn [app] in Heq. subst added. split.
    + intros y [<-|Hy]; [exact I|].
      now apply all_from_disk_children with (x :: items).
    + exists (x :: items). split; [reflexivity|]. split; [discriminate|].
      exact Hsub.
  - subst y. apply range_fileNames_Return in Hx as (err & [=]).
Qed.

End TreesOnDisk.

(** ** Where the errors come from *)

Section Errors.

Variable fs : FileSystem.

(** A round that leaves the function does so with an error of the file
    system, its own read error or one the scanner returned. *)
Lemma gathers_Return_error {R}
    (scan : FilePath -> M (option Course * option error))
    (fail : error -> R) (p : FilePath) (items : list Tutorial) (y : R) :
  (forall c err, returns (scan p) (c, Some err) -> fs_error fs err) ->
  gathers fs scan fail p items (Return y) ->
  exists err, y = fail err /\ fs_error fs err.
Proof.
  intros Hscan H. inversion H as [?|err Hf Hr|?|?|c err Hf Hd Hs|?]; subst.
  - exists err. split; [reflexivity|]. exists p. now left.
  - exists err. split; [reflexivity|]. now apply Hscan with c.
Qed.

Lemma range_files_Return_error
    (scan : FilePath -> M (option Course * option error)) (d : FilePath)
    (files : list string) :
  (forall q c err, returns (scan q) (c, Some err) -> fs_error fs err) ->
  forall items y,
    returns (range_files fs scan d files items) (Return y) ->
    exists err, y = (None, Some err) /\ fs_error fs err.
Proof.
  intros Hscan. induction files as [|f rest IH]; intros items y.
  - rewrite returns_range_files_nil. discriminate.
  - rewrite returns_range_files_cons. intros ([items'|y'] & Hx & H).
    + now apply IH with items'.
    + injection H as ->.
      apply gathers_Return_error in Hx; [assumption|apply Hscan].
Qed.

Lemma scanDir_error_from_fs (fuel : nat) :
  forall d c err,
    returns (scanDir fs fuel d) (c, Some err) -> fs_error fs err.
Proof.
  induction fuel as [|fuel IH]; intros d c err H.
  - now apply scanDir_O in H.
  - apply returns_scanDir_S in H
      as [(err' & Hdir & [= -> ->])|(files & [items|y] & Hdir & Hx & H)].
    + exists d. now right.
    + discriminate.
    + subst y.
      apply (range_files_Return_error (scanDir fs fuel) d files IH) in Hx
        as (err' & [= -> ->] & Herr).
      exact Herr.
Qed.

Lemma range_fileNames_Return_error (fuel : nat) (fileNames : list FilePath) :
  forall items y,
    returns (range_fileNames fs fuel fileNames items) (Return y) ->
    exists err, y = (nil_Tutorial, Some err) /\ fs_error fs err.
Proof.
  induction fileNames as [|f rest IH]; intros items y.
  - rewrite returns_range_fileNames_nil. discriminate.
  - rewrite returns_range_fileNames_cons. intros ([items'|y'] & Hx & H).
    + now apply IH with items'.
    + injection H as ->.
      apply gathers_Return_error in Hx; [assumption|].
      apply scanDir_error_from_fs.
Qed.

(** X10. [scanDir] makes up no error: an error it returns is one that [Read]
    or [ReadDir] returned for some path, handed up unchanged from however
    deep, and it comes with no Course. *)
Theorem scanDir_hands_up_the_errors_of_the_file_system (d : FilePath)
    (c : option Course) (err : error) :
  scanDir_returns fs d (c, Some err) -> c = None /\ fs_error fs err.
Proof.
  intros [fuel H]. split.
  - now apply scanDir_error in H.
  - now apply scanDir_error_from_fs in H.
Qed.

(** X11. The errors of the loaders. An error [LoadOne] returns is the error
    "Cannot process" with the root in it, or an error of the file system
    handed up unchanged. An error [LoadMany] returns is "no files?", and then
    no path was given; or what [LoadOne] returns for the one path given; or
    "Nothing useful found", and then two paths or more were given; or an
    error of the file system. *)
Theorem loaders_errors (root : FilePath) (fileNames : list FilePath)
    (v : Tutorial_value) (err : error) :
  (LoadOne_returns fs root (v, Some err) ->
   err = errors_New ("Cannot process " +:+ root) \/ fs_error fs err)
  /\ (LoadMany_returns fs fileNames (v, Some err) ->
      (fileNames = [] /\ err = errors_New "no files?")
      \/ (exists p, fileNames = [p]
                    /\ err = errors_New ("Cannot process " +:+ p))
      \/ ((2 <= length fileNames)%nat
          /\ err = errors_New "Nothing useful found")
      \/ fs_error fs err).
Proof.
  assert (Hone : forall fuel p w,
             returns (LoadOne fs fuel p) (w, Some err) ->
             err = errors_New ("Cannot process " +:+ p) \/ fs_error fs err).
  { intros fuel p w H. apply returns_LoadOne in H.
    inversion H as [?|e Hf Hr|?|c e Hf Hd Hs|Hf Hd Hs|Hf Hd]; subst.
    - right. exists p. now left.
    - right. now apply scanDir_error_from_fs in Hs.
    - now left.
    - now left. }
  split.
  - intros [fuel H]. now apply Hone in H.
  - intros [fuel H]. destruct fileNames as [|f [|g rest]].
    + destruct H as [l [= <- <-]]. now left.
    + rewrite LoadMany_one in H. apply Hone in H as [->|H]; eauto 6.
    + apply returns_LoadMany_several in H as ([items|y] & Hx & H).
      * destruct items as [|x items]; [|discriminate].
        injection H as -> ->. right. right. left.
        split; [cbn; lia|reflexivity].
      * subst y. apply range_fileNames_Return_error in Hx
          as (err' & [= -> ->] & Herr).
        now repeat right.
Qed.


End Errors.

(** ** The text of the debug printer *)

Section PrinterOutline.

Variable fs : FileSystem.
Variable SampleString : string -> Z -> string.

Local Abbreviation Accept := (TutorialPrinter_Accept fs SampleString).
Local Abbreviation text := (Printer_text fs SampleString).
Local Abbreviation line := (Printer_line fs SampleString).

Lemma Printer_text_Lesson (filepath : FilePath) (content : string) (i : Z) :
  text (ptrLesson filepath content) i
  = spaces i +:+ Base fs filepath +:+ " --- " +:+ SampleString content 60
      +:+ "..." +:+ fmt.LF.
Proof.
  unfold Printer_text. cbn [TutorialPrinter_Accept].
  unfold TutorialPrinter_VisitLesson, fmt.Fprintf. cbn [indent w].
  now rewrite Sprintf_Lesson_line.
Qed.

Lemma Printer_text_Course (filepath : FilePath) (children : list Tutorial)
    (i : Z) :
  int_range i -> int_range (i + 3) ->
  text (ptrCourse filepath children) i
  = spaces i +:+ Base fs filepath +:+ fmt.LF
      +:+ join_all (map (fun x => text x (i + 3)) children).
Proof.
  intros Hi Hi3. unfold Printer_text at 1. cbn [TutorialPrinter_Accept].
  unfold TutorialPrinter_VisitCourse, fmt.Fprintf. cbn [indent w].
  rewrite Sprintf_Course_line, (wrap_int_id (i + 3) Hi3).
  rewrite Printer_children.
  - cbn [w]. change (EmptyString +:+ ?x) with x.
    now rewrite !append_assoc.
  - apply List.Forall_forall. intros x _ w1.
    now apply Printer_Accept_frame.
Qed.

Lemma Printer_text_TopCourse (filepath : FilePath) (children : list Tutorial)
    (i : Z) :
  int_range i ->
  text (ptrTopCourse filepath children) i
  = join_all (map (fun x => text x i) children).
Proof.
  intros Hi. unfold Printer_text at 1. cbn [TutorialPrinter_Accept].
  unfold TutorialPrinter_VisitTopCourse. rewrite Printer_children.
  - reflexivity.
  - apply List.Forall_forall. intros x _ w1.
    now apply Printer_Accept_frame.
Qed.

Lemma join_all_cons (x : string) (l : list string) :
  join_all (x :: l) = x +:+ join_all l.
Proof. reflexivity. Qed.

Lemma join_all_flat_map {A B} (f : B -> string) (g : A -> list B)
    (l : list A) :
  join_all (map f (flat_map g l))
  = join_all (map (fun x => join_all (map f (g x))) l).
Proof.
  induction l as [|x l IH]; [reflexivity|].
  cbn [flat_map map]. rewrite map_app, join_all_app, IH. reflexivity.
Qed.

Lemma height_child (x : Tutorial) (children : list Tutorial) :
  In x children ->
  (height x <= fold_right Nat.max O (map height children))%nat.
Proof.
  induction children as [|y children IH]; intros Hx; [destruct Hx|].
  cbn [map fold_right]. destruct Hx as [<-|Hx].
  - lia.
  - specialize (IH Hx). lia.
Qed.

Lemma int_range_width (n : nat) :
  (n <= Z.to_nat fmt.max_width)%nat -> int_range (Z.of_nat n).
Proof.
  unfold int_range, int_min, int_max, fmt.max_width. lia.
Qed.

(** What the printer writes for a tree nested in [d] Courses is the lines of
    its outline, as long as the indentation stays within the widths [fmt]
    honours. *)
Lemma Printer_text_outline (t : Tutorial) :
  forall d,
    (3 * (d + height t) <= Z.to_nat fmt.max_width)%nat ->
    text t (Z.of_nat (3 * d)) = join_all (map line (outline t d)).
Proof.
  induction t as [filepath content|filepath children IH|filepath children IH]
    using Tutorial_induction; intros d Hd.
  - rewrite Printer_text_Lesson, spaces_blanks, Nat2Z.id.
    unfold join_all, Printer_line. cbn [outline map fold_right fst snd].
    now rewrite !append_assoc, append_nil_r.
  - cbn [height] in Hd.
    assert (Hmap :
              map (fun x => text x (Z.of_nat (3 * d) + 3)) children
              = map (fun x => join_all (map line (outline x (S d)))) children).
    { apply map_ext_in. intros x Hx.
      replace (Z.of_nat (3 * d) + 3) with (Z.of_nat (3 * S d)) by lia.
      rewrite List.Forall_forall in IH. apply (IH x Hx).
      pose proof (height_child x children Hx). lia. }
    rewrite Printer_text_Course; try (apply int_range_width; lia).
    2:{ replace (Z.of_nat (3 * d) + 3) with (Z.of_nat (3 * S d)) by lia.
        apply int_range_width. lia. }
    rewrite Hmap, <- join_all_flat_map, spaces_blanks, Nat2Z.id.
    cbn [outline map]. rewrite join_all_cons.
    change (line (d, ptrCourse filepath children))
      with (fmt.blanks (3 * d) +:+ Base fs filepath +:+ fmt.LF).
    now rewrite !append_assoc.
  - cbn [height] in Hd.
    assert (Hmap :
              map (fun x => text x (Z.of_nat (3 * d))) children
              = map (fun x => join_all (map line (outline x d))) children).
    { apply map_ext_in. intros x Hx.
      rewrite List.Forall_forall in IH. apply (IH x Hx).
      pose proof (height_child x children Hx). lia. }
    rewrite Printer_text_TopCourse; [|apply int_range_width; lia].
    now rewrite Hmap, <- join_all_flat_map.
Qed.

(** X13. Whatever the tree, and whatever the indentation within the range of
    an [int], the debug printer leaves the indentation as it found it (also
    when adding the 3 columns of a Course wraps around), and it only appends
    to the writer: what was written before stays, and what is added depends
    on the tree and on the indentation alone. *)
Theorem debug_printer_appends_and_restores_the_indent (t : Tutorial)
    (v : TutorialPrinter) :
  int_range (indent v) ->
  indent (Accept t v) = indent v
  /\ w (Accept t v) = w v +:+ text t (indent v)
  /\ forall w', Accept t (mkTutorialPrinter (indent v) w')
                = mkTutorialPrinter (indent v) (w' +:+ text t (indent v)).
Proof.
  intros Hi. destruct v as [i w0]. cbn [indent w] in *.
  rewrite (Printer_Accept_frame fs SampleString t i w0 Hi). cbn [indent w].
  split; [reflexivity|]. split; [reflexivity|].
  intros w'. now apply Printer_Accept_frame.
Qed.

(** X14. The dump of a fresh debug printer is the outline of the tree: one
    line for each Lesson and each Course, in pre-order, indented by 3 blanks
    for each Course the node is nested in; a TopCourse has no line and does
    not indent. A Lesson's line holds its name, [ --- ], the sample of its
    content and [...]; a Course's line holds its name. (For trees nested no
    deeper than the widths [fmt] honours.) *)
Theorem debug_printer_writes_the_outline (t : Tutorial) (w0 : string) :
  3 * Z.of_nat (height t) <= fmt.max_width ->
  w (Accept t (NewTutorialPrinter w0))
  = w0 +:+ join_all (map line (outline t 0)).
Proof.
  intros Hh. unfold NewTutorialPrinter.
  rewrite Printer_Accept_frame;
    [|unfold int_range, int_min, int_max; lia].
  cbn [w]. f_equal.
  apply (Printer_text_outline t 0). rewrite Nat.add_0_l.
  unfold fmt.max_width in *. lia.
Qed.

End PrinterOutline.

(** ** What the content parser keeps *)

Section ParserResults.

Variable Block : Type.
Variable Parse : string -> gmap Label (list Block).

Local Abbreviation Accept := (TutorialParser_Accept Block Parse).

(** Only the Lessons of a walk yield anything. *)
Lemma omap_parsed_of_Lessons (lbl : Label) (l : list Tutorial) :
  omap (parsed_of Parse lbl) (List.filter is_Lesson l)
  = omap (parsed_of Parse lbl) l.
Proof.
  induction l as [|x l IH]; [reflexivity|].
  destruct x as [filepath content|filepath children|filepath children];
    cbn [List.filter is_Lesson].
  - change (ptrLesson filepath content :: ?k)
      with ([ptrLesson filepath content] ++ k).
    now rewrite !omap_app, IH.
  - change (ptrCourse filepath children :: l)
      with ([ptrCourse filepath children] ++ l).
    now rewrite omap_app, IH.
  - change (ptrTopCourse filepath children :: l)
      with ([ptrTopCourse filepath children] ++ l).
    now rewrite omap_app, IH.
Qed.

(** What the Lessons of a list yield: results whose paths are paths of the
    Lessons, in order, each with the blocks the lexer files under the label
    in the content of its Lesson. *)
Lemma parsed_of_Lessons (lbl : Label) (l : list Tutorial) :
  sublist (map ParsedFile_path (omap (parsed_of Parse lbl) l)) (map Path l)
  /\ Forall (fun pf =>
               exists content,
                 In (ptrLesson (ParsedFile_path pf) content) l
                 /\ Parse content !! lbl = Some (ParsedFile_blocks pf))
       (omap (parsed_of Parse lbl) l).
Proof.
  induction l as [|x l [IHs IHf]]; [split; constructor|].
  assert (Hrest : Forall (fun pf =>
                    exists content,
                      In (ptrLesson (ParsedFile_path pf) content) (x :: l)
                      /\ Parse content !! lbl = Some (ParsedFile_blocks pf))
                    (omap (parsed_of Parse lbl) l)).
  { revert IHf. apply List.Forall_impl. intros pf (content & Hin & Hp).
    exists content. split; [now right|assumption]. }
  change (x :: l) with ([x] ++ l) at 1 3. rewrite omap_app.
  destruct x as [filepath content|filepath children|filepath children];
    cbn [map Path app].
  - cbn. destruct (Parse content !! lbl) as [blocks|] eqn:Hp; cbn.
    + split; [now apply sublist_skip|]. constructor; [|exact Hrest].
      exists content. split; [now left|exact Hp].
    + split; [now apply sublist_cons|exact Hrest].
  - cbn. split; [now apply sublist_cons|exact Hrest].
  - cbn. split; [now apply sublist_cons|exact Hrest].
Qed.

(** X15. What the content parser extracts depends on the Lessons of the tree
    and their order alone, not on how they are grouped into Courses: two
    trees with the same Lessons in the same order leave a parser in the same
    state. *)
Theorem content_parser_sees_the_Lessons_only (t t' : Tutorial)
    (v : TutorialParser Block) :
  lessons t = lessons t' -> Accept t v = Accept t' v.
Proof.
  intros Heq. rewrite !Parser_Accept_spec. f_equal. f_equal.
  rewrite <- (omap_parsed_of_Lessons (label v) (preorder t)).
  rewrite <- (omap_parsed_of_Lessons (label v) (preorder t')).
  unfold lessons in Heq. now rewrite Heq.
Qed.

(** X16. The results a walk adds are results for Lessons of the tree: their
    paths are a sublist of the paths of the Lessons in document order (one
    result at most for a Lesson, none out of order), and each holds the
    blocks [lexer.Parse] files under the label of the parser in the content
    of its Lesson. What the parser held before comes first, unchanged. *)
Theorem content_parser_results_belong_to_Lessons (t : Tutorial)
    (v : TutorialParser Block) :
  exists added,
    Files (Accept t v) = Files v ++ added
    /\ sublist (map ParsedFile_path added) (map Path (lessons t))
    /\ Forall (fun pf =>
                 exists content,
                   In (ptrLesson (ParsedFile_path pf) content) (lessons t)
                   /\ Parse content !! label v = Some (ParsedFile_blocks pf))
         added
    /\ (length added <= length (lessons t))%nat.
Proof.
  exists (omap (parsed_of Parse (label v)) (lessons t)).
  destruct (parsed_of_Lessons (label v) (lessons t)) as [Hsub Hall].
  split; [|split; [exact Hsub|split; [exact Hall|]]].
  - rewrite Parser_Accept_spec. unfold Files, lessons. cbn [parsedFiles].
    now rewrite omap_parsed_of_Lessons.
  - apply sublist_length in Hsub. now rewrite !length_map in Hsub.
Qed.

End ParserResults.

(** ** The further properties at work *)

Lemma desirable_file_and_desirable_dir_exclude_each_other_witness :
  returns (isDesirableFile benelux "solo.md") true
  /\ returns (isDesirableDir benelux "solo.md") false.
Proof.
  assert (H : returns (isDesirableFile benelux "solo.md") true).
  { eexists. reflexivity. }
  split; [exact H|].
  exact (proj1 (desirable_file_and_desirable_dir_exclude_each_other
                  benelux "solo.md") H).
Defined.

Lemma filters_log_one_line_per_rejection_witness :
  isDesirableFile benelux "benelux/notes.txt"
  = Done false ["Ignoring non markdown file notes.txt"]
  /\ length ["Ignoring non markdown file notes.txt"] = 1%nat.
Proof.
  split; [reflexivity|].
  exact (proj1 (filters_log_one_line_per_rejection benelux
                  "benelux/notes.txt" false
                  ["Ignoring non markdown file notes.txt"]) eq_refl).
Defined.

Lemma files_with_a_bad_leading_char_are_rejected_witness :
  lookup_path benelux "benelux/~draft.md"
  = inl (os.mkFileInfo "~draft.md" 420)
  /\ returns (isDesirableFile benelux "benelux/~draft.md") false.
Proof.
  split; [reflexivity|].
  apply (files_with_a_bad_leading_char_are_rejected benelux
           "benelux/~draft.md" (os.mkFileInfo "~draft.md" 420)
           "~"%char "draft.md").
  - reflexivity.
  - reflexivity.
  - reflexivity.
  - now left.
Defined.

Lemma directories_are_filtered_by_name_witness :
  lookup_path benelux "benelux/.git"
  = inl (os.mkFileInfo ".git" (Z.lor os.ModeDir 493))
  /\ returns (isDesirableDir benelux "benelux/.git") false.
Proof.
  split; [reflexivity|].
  apply (proj1 (proj2 (directories_are_filtered_by_name benelux
                         "benelux/.git"
                         (os.mkFileInfo ".git" (Z.lor os.ModeDir 493))
                         eq_refl))
           "git").
  - reflexivity.
  - reflexivity.
  - discriminate.
  - discriminate.
Defined.

Lemma markdown_files_are_desirable_witness :
  lookup_path benelux "solo.md" = inl (os.mkFileInfo "solo.md" 420)
  /\ isDesirableFile benelux "solo.md" = Done true [].
Proof.
  split; [reflexivity|].
  apply (markdown_files_are_desirable benelux "solo.md"
           (os.mkFileInfo "solo.md" 420) "s"%char "olo").
  - reflexivity.
  - reflexivity.
  - reflexivity.
  - reflexivity.
  - intros [H|[H|[H|[]]]]; discriminate H.
Defined.

Lemma scanDir_children_follow_the_listing_witness :
  scanDir_returns benelux "benelux/03_belgium"
    (Some (mkCourse "benelux/03_belgium"
             [ ptrLesson "benelux/03_belgium/01_tintin.md" "Tintin";
               ptrLesson "benelux/03_belgium/02_beer.md" "Beer" ]), None)
  /\ exists files,
       ReadDir benelux "benelux/03_belgium" = inl files
       /\ sublist [ "benelux/03_belgium/01_tintin.md";
                    "benelux/03_belgium/02_beer.md" ]
            (map (Join benelux "benelux/03_belgium") files).
Proof.
  assert (H : scanDir_returns benelux "benelux/03_belgium"
                (Some (mkCourse "benelux/03_belgium"
                         [ ptrLesson "benelux/03_belgium/01_tintin.md" "Tintin";
                           ptrLesson "benelux/03_belgium/02_beer.md" "Beer" ]),
                 None)).
  { exists 1%nat. eexists. reflexivity. }
  split; [exact H|].
  exact (proj1 (proj2 (scanDir_children_follow_the_listing benelux
                         "benelux/03_belgium" _ H))).
Defined.

Lemma LoadOne_tree_sits_on_disk_witness :
  LoadOne_returns benelux "benelux" (node benelux_tree, None)
  /\ all_from_disk benelux benelux_tree.
Proof.
  assert (H : LoadOne_returns benelux "benelux" (node benelux_tree, None)).
  { exists 2%nat. eexists. reflexivity. }
  split; [exact H|].
  exact (proj1 (LoadOne_tree_sits_on_disk benelux "benelux" benelux_tree H)).
Defined.

Lemma LoadMany_tree_follows_the_paths_given_witness :
  LoadMany_returns benelux ["solo.md"; "benelux"]
    (node solo_and_benelux_tree, None)
  /\ exists children,
       solo_and_benelux_tree = ptrTopCourse EmptyString children
       /\ children <> []
       /\ sublist (map Path children) ["solo.md"; "benelux"].
Proof.
  assert (H : LoadMany_returns benelux ["solo.md"; "benelux"]
                (node solo_and_benelux_tree, None)).
  { exists 2%nat. eexists. reflexivity. }
  split; [exact H|].
  exact (proj2 (LoadMany_tree_follows_the_paths_given benelux
                  "solo.md" "benelux" [] solo_and_benelux_tree H)).
Defined.

Lemma scanDir_hands_up_the_errors_of_the_file_system_witness :
  scanDir_returns locked "benelux"
    (None, Some (PathError "read" "benelux/01_history.md" "permission denied"))
  /\ fs_error locked
       (PathError "read" "benelux/01_history.md" "permission denied").
Proof.
  assert (H : scanDir_returns locked "benelux"
                (None,
                 Some (PathError "read" "benelux/01_history.md"
                         "permission denied"))).
  { exists 1%nat. eexists. reflexivity. }
  split; [exact H|].
  exact (proj2 (scanDir_hands_up_the_errors_of_the_file_system locked
                  "benelux" None _ H)).
Defined.

Lemma loaders_errors_witness :
  LoadOne_returns benelux "hollow"
    (nil_Tutorial, Some (errors_New "Cannot process hollow"))
  /\ (errors_New "Cannot process hollow"
      = errors_New ("Cannot process " +:+ "hollow")
      \/ fs_error benelux (errors_New "Cannot process hollow")).
Proof.
  assert (H : LoadOne_returns benelux "hollow"
                (nil_Tutorial, Some (errors_New "Cannot process hollow"))).
  { exists 2%nat. eexists. reflexivity. }
  split; [exact H|].
  exact (proj1 (loaders_errors benelux "hollow" [] nil_Tutorial
                  (errors_New "Cannot process hollow")) H).
Defined.


Lemma debug_printer_appends_and_restores_the_indent_witness :
  int_range (indent (mkTutorialPrinter int_max "dump:"))
  /\ indent (TutorialPrinter_Accept benelux SampleString_all benelux_tree
               (mkTutorialPrinter int_max "dump:"))
     = int_max.
Proof.
  assert (H : int_range (indent (mkTutorialPrinter int_max "dump:"))).
  { cbn. unfold int_range, int_min, int_max. lia. }
  split; [exact H|].
  exact (proj1 (debug_printer_appends_and_restores_the_indent benelux
                  SampleString_all benelux_tree
                  (mkTutorialPrinter int_max "dump:") H)).
Defined.

Lemma debug_printer_writes_the_outline_witness :
  3 * Z.of_nat (height benelux_tree) <= fmt.max_width
  /\ w (TutorialPrinter_Accept benelux SampleString_all benelux_tree
          (NewTutorialPrinter EmptyString))
     = join_all (map (Printer_line benelux SampleString_all)
                   (outline benelux_tree 0)).
Proof.
  assert (H : 3 * Z.of_nat (height benelux_tree) <= fmt.max_width).
  { cbn. unfold fmt.max_width. lia. }
  split; [exact H|].
  exact (debug_printer_writes_the_outline benelux SampleString_all
           benelux_tree EmptyString H).
Defined.

Lemma content_parser_sees_the_Lessons_only_witness :
  lessons benelux_tree = lessons (ptrTopCourse "flat" (lessons benelux_tree))
  /\ TutorialParser_Accept string Parse_whole benelux_tree
       (NewTutorialParser "run")
     = TutorialParser_Accept string Parse_whole
         (ptrTopCourse "flat" (lessons benelux_tree))
         (NewTutorialParser "run").
Proof.
  split; [reflexivity|].
  exact (content_parser_sees_the_Lessons_only string Parse_whole benelux_tree
           (ptrTopCourse "flat" (lessons benelux_tree))
           (NewTutorialParser "run") eq_refl).
Defined.
